(** * libgearman/state.c: the session object of the Gearman client library

    A shallow embedding of [libgearman/state.c] and the properties of its
    operations: option handling, error recording, [gearman_flush_all],
    [gearman_wait], [gearman_ready], [gearman_echo] and
    [gearman_state_clone].

    Conventions of the embedding:
    - a C [int] or [short] is a [Z]; counters that are only copied and
      compared ([con_count], [pfds_size]) are [nat];
    - a [char] array is a list of cells, a cell being either a byte or
      indeterminate (memory that was never written);
    - a linked list of connections is the list of its nodes in [next]
      order, and a pointer to a connection of the session is its index;
    - what the operating system answers ([poll], the allocator) is read from
      a [world] that every effectful operation threads through;
    - behaviour the C standard leaves undefined (a write past the end of an
      array) is the outcome [Undefined]. *)

From Stdlib Require Import ZArith Lia Strings.Byte String DecimalString.
From stdpp Require Import base option list.

(** ** Return codes and options *)

(** Modelled from the spec: [gearman_return_t] is declared in a header, not
    in state.c; the tags are the closed set of section 7. *)
Inductive gearman_return_t : Set :=
| GEARMAN_SUCCESS
| GEARMAN_IO_WAIT
| GEARMAN_TIMEOUT
| GEARMAN_NO_ACTIVE_FDS
| GEARMAN_LOST_CONNECTION
| GEARMAN_MEMORY_ALLOCATION_FAILURE
| GEARMAN_INVALID_MAGIC
| GEARMAN_INVALID_COMMAND
| GEARMAN_INVALID_PACKET
| GEARMAN_ARGUMENT_TOO_LARGE
| GEARMAN_ECHO_DATA_CORRUPTION
| GEARMAN_SERVER_ERROR
| GEARMAN_ERRNO
| GEARMAN_COULD_NOT_CONNECT
| GEARMAN_SEND_IN_PROGRESS
| GEARMAN_RECV_IN_PROGRESS
| GEARMAN_NOT_CONNECTED
| GEARMAN_UNKNOWN_STATE.

#[global] Instance gearman_return_eq_dec : EqDecision gearman_return_t.
Proof. solve_decision. Defined.

(** [ret != GEARMAN_SUCCESS], the test state.c makes after every call. *)
Definition not_success (ret : gearman_return_t) : bool :=
  bool_decide (ret <> GEARMAN_SUCCESS).

(** [ret != GEARMAN_SUCCESS && ret != GEARMAN_IO_WAIT] (the spec's
    [failed]). *)
Definition gearman_failed (ret : gearman_return_t) : bool :=
  bool_decide (ret <> GEARMAN_SUCCESS) && bool_decide (ret <> GEARMAN_IO_WAIT).

(** Modelled from the spec: [gearman_options_t] is declared in a header, not
    in state.c.  The three enumerators are the ones state.c names; since
    a C enum parameter can carry any integer, [GEARMAN_OPTION_OTHER] stands
    for a value that is none of them. *)
Inductive gearman_options_t : Set :=
| GEARMAN_NON_BLOCKING
| GEARMAN_DONT_TRACK_PACKETS
| GEARMAN_MAX
| GEARMAN_OPTION_OTHER (code : Z).

#[global] Instance gearman_options_eq_dec : EqDecision gearman_options_t.
Proof. solve_decision. Defined.

(** Modelled from the spec: the verbosity levels of section 6. *)
Inductive gearman_verbose_t : Set :=
| GEARMAN_VERBOSE_FATAL
| GEARMAN_VERBOSE_ERROR
| GEARMAN_VERBOSE_INFO
| GEARMAN_VERBOSE_DEBUG
| GEARMAN_VERBOSE_CRAZY.

(** ** Outcomes *)

(** What running a piece of C does: it returns a value, its behaviour is
    undefined, or it is still inside [poll] when the answers the world has
    in store are used up. *)
Inductive outcome (A : Type) : Type :=
| Returns (a : A)
| Undefined
| Waiting.
Arguments Returns {A} a.
Arguments Undefined {A}.
Arguments Waiting {A}.

Definition outcome_bind {A B} (m : outcome A) (k : A -> outcome B) : outcome B :=
  match m with
  | Returns a => k a
  | Undefined => Undefined
  | Waiting => Waiting
  end.

Declare Scope c_scope.
Delimit Scope c_scope with C.
Notation "'do' x <- m ; k" := (outcome_bind m (fun x => k))
  (at level 10, x name, m at level 100, k at level 200, only parsing) : c_scope.
Notation "'do' ' pat <- m ; k" :=
  (outcome_bind m (fun x => match x with pat => k end))
  (at level 10, pat pattern, m at level 100, k at level 200, only parsing) : c_scope.
Local Open Scope c_scope.

(** ** Character arrays *)

Module Buf.

(** One [char] of memory: [Some b] once it has been written, [None] while
    its value is indeterminate. *)
Definition cell : Set := option byte.

#[global] Instance byte_eq_decision : EqDecision byte := Byte.byte_eq_dec.

Definition NUL : byte := x00.

(** A fresh array of [n] chars (a local array, or malloc'ed memory). *)
Definition fresh (n : nat) : list cell := replicate n None.

(** Writing [bytes] at offset [off] of an array: undefined when the
    bytes do not fit. *)
Definition store (buf : list cell) (off : nat) (bytes : list byte)
  : outcome (list cell) :=
  if decide (off + length bytes <= length buf)
  then Returns (take off buf ++ (Some <$> bytes) ++ drop (off + length bytes) buf)
  else Undefined.

(** [memcpy(dst, src, n)] between two arrays, for an [n] within both. *)
Definition memcpy (dst src : list cell) (n : nat) : list cell :=
  take n src ++ drop n dst.

(** The C string an array holds: the bytes before its first NUL.  There is
    none when an indeterminate cell or the end of the array comes first. *)
Fixpoint c_str (buf : list cell) : option (list byte) :=
  match buf with
  | [] => None
  | None :: _ => None
  | Some b :: rest =>
      if decide (b = NUL) then Some [] else cons b <$> c_str rest
  end.

Definition nul_terminated (buf : list cell) : Prop := is_Some (c_str buf).

(** The text of a C string literal or of a [const char *] argument. *)
Definition text (s : string) : list byte := list_byte_of_string s.

(** [vsnprintf(buf + off, n, ...)], the conversion having produced
    [formatted]: with [n = 0] nothing is written; otherwise the first
    [n - 1] bytes of [formatted] and a NUL.  The value returned is the
    length of [formatted] whatever [n] is. *)
Definition vsnprintf (buf : list cell) (off n : nat) (formatted : list byte)
  : outcome (list cell * nat) :=
  match n with
  | O => Returns (buf, length formatted)
  | S m =>
      do buf' <- store buf off (take m formatted ++ [NUL]);
      Returns (buf', length formatted)
  end.

(** What ["%d"] prints for an [int]. *)
Definition decimal (n : Z) : list byte :=
  text (NilZero.string_of_int (Z.to_int n)).

End Buf.

(** ** Data model *)

(** Modelled from the spec: the packet struct is declared in a header, not
    in state.c (section 3, Packet).  [data] is the trailing opaque block;
    [data_size] is its length. *)
Inductive gearman_magic_t : Set :=
| GEARMAN_MAGIC_TEXT
| GEARMAN_MAGIC_REQUEST
| GEARMAN_MAGIC_RESPONSE.

Inductive gearman_command_t : Set :=
| GEARMAN_COMMAND_TEXT
| GEARMAN_COMMAND_ECHO_REQ
| GEARMAN_COMMAND_ECHO_RES
| GEARMAN_COMMAND_ERROR
| GEARMAN_COMMAND_CODE (code : Z).

Record gearman_packet_st : Set := {
  magic : gearman_magic_t;
  command : gearman_command_t;
  args : list (list byte);
  data : list byte
}.

Definition data_size (packet : gearman_packet_st) : nat := length (data packet).

(** Modelled from the spec: the connection struct is declared in a header,
    not in state.c (section 3, Connection).  state.c itself reads [fd],
    [events], [options.ready] and [packet] and follows [next]; the other
    fields belong to the connection engine. *)
Inductive send_state_t : Set := SEND_IDLE | SEND_WRITING | SEND_FLUSH_DATA.

Inductive recv_state_t : Set := RECV_READ | RECV_READ_DATA.

Record gearman_connection_st : Set := {
  host : list byte;
  port : Z;
  fd : Z;
  events : Z;
  revents : Z;
  ready : bool;
  send_state : send_state_t;
  recv_state : recv_state_t;
  packet : gearman_packet_st
}.

Definition set_ready (value : bool) (con : gearman_connection_st)
  : gearman_connection_st :=
  {| host := host con; port := port con; fd := fd con; events := events con;
     revents := revents con; ready := value; send_state := send_state con;
     recv_state := recv_state con; packet := packet con |}.

Definition set_packet (p : gearman_packet_st) (con : gearman_connection_st)
  : gearman_connection_st :=
  {| host := host con; port := port con; fd := fd con; events := events con;
     revents := revents con; ready := ready con; send_state := send_state con;
     recv_state := recv_state con; packet := p |}.

(** [struct pollfd]. *)
Record pollfd : Set := {
  pfd_fd : Z;
  pfd_events : Z;
  pfd_revents : Z
}.

(** The [options] bit-field struct of the session. *)
Record gearman_state_options_t : Set := {
  allocated : bool;
  dont_track_packets : bool;
  non_blocking : bool;
  stored_non_blocking : bool
}.

(** [gearman_state_st].  A function pointer or a [void *] context is [None]
    when NULL and otherwise names what it points to.  [pfds] is the polling
    array, [None] marking an entry never written; [pfds_size], which state.c
    always writes together with [pfds], is its length. *)
Record gearman_state_st : Type := {
  options : gearman_state_options_t;
  verbose : Z;
  con_count : nat;
  packet_count : nat;
  sending : nat;
  last_errno : Z;
  timeout : Z;
  con_list : list gearman_connection_st;
  packet_list : list gearman_packet_st;
  pfds : list (option pollfd);
  log_fn : option nat;
  log_context : option nat;
  event_watch_fn : option nat;
  event_watch_context : option nat;
  workload_malloc_fn : option nat;
  workload_malloc_context : option nat;
  workload_free_fn : option nat;
  workload_free_context : option nat;
  last_error : list Buf.cell
}.

Definition pfds_size (state : gearman_state_st) : nat := length (pfds state).

(** Field assignments. *)
Definition set_options (o : gearman_state_options_t) (s : gearman_state_st) :=
  {| options := o; verbose := verbose s; con_count := con_count s;
     packet_count := packet_count s; sending := sending s;
     last_errno := last_errno s; timeout := timeout s; con_list := con_list s;
     packet_list := packet_list s; pfds := pfds s; log_fn := log_fn s;
     log_context := log_context s; event_watch_fn := event_watch_fn s;
     event_watch_context := event_watch_context s;
     workload_malloc_fn := workload_malloc_fn s;
     workload_malloc_context := workload_malloc_context s;
     workload_free_fn := workload_free_fn s;
     workload_free_context := workload_free_context s;
     last_error := last_error s |}.

Definition set_last_errno (e : Z) (s : gearman_state_st) :=
  {| options := options s; verbose := verbose s; con_count := con_count s;
     packet_count := packet_count s; sending := sending s;
     last_errno := e; timeout := timeout s; con_list := con_list s;
     packet_list := packet_list s; pfds := pfds s; log_fn := log_fn s;
     log_context := log_context s; event_watch_fn := event_watch_fn s;
     event_watch_context := event_watch_context s;
     workload_malloc_fn := workload_malloc_fn s;
     workload_malloc_context := workload_malloc_context s;
     workload_free_fn := workload_free_fn s;
     workload_free_context := workload_free_context s;
     last_error := last_error s |}.

Definition set_con_list (l : list gearman_connection_st) (s : gearman_state_st) :=
  {| options := options s; verbose := verbose s; con_count := con_count s;
     packet_count := packet_count s; sending := sending s;
     last_errno := last_errno s; timeout := timeout s; con_list := l;
     packet_list := packet_list s; pfds := pfds s; log_fn := log_fn s;
     log_context := log_context s; event_watch_fn := event_watch_fn s;
     event_watch_context := event_watch_context s;
     workload_malloc_fn := workload_malloc_fn s;
     workload_malloc_context := workload_malloc_context s;
     workload_free_fn := workload_free_fn s;
     workload_free_context := workload_free_context s;
     last_error := last_error s |}.

Definition set_pfds (p : list (option pollfd)) (s : gearman_state_st) :=
  {| options := options s; verbose := verbose s; con_count := con_count s;
     packet_count := packet_count s; sending := sending s;
     last_errno := last_errno s; timeout := timeout s; con_list := con_list s;
     packet_list := packet_list s; pfds := p; log_fn := log_fn s;
     log_context := log_context s; event_watch_fn := event_watch_fn s;
     event_watch_context := event_watch_context s;
     workload_malloc_fn := workload_malloc_fn s;
     workload_malloc_context := workload_malloc_context s;
     workload_free_fn := workload_free_fn s;
     workload_free_context := workload_free_context s;
     last_error := last_error s |}.

Definition set_last_error (e : list Buf.cell) (s : gearman_state_st) :=
  {| options := options s; verbose := verbose s; con_count := con_count s;
     packet_count := packet_count s; sending := sending s;
     last_errno := last_errno s; timeout := timeout s; con_list := con_list s;
     packet_list := packet_list s; pfds := pfds s; log_fn := log_fn s;
     log_context := log_context s; event_watch_fn := event_watch_fn s;
     event_watch_context := event_watch_context s;
     workload_malloc_fn := workload_malloc_fn s;
     workload_malloc_context := workload_malloc_context s;
     workload_free_fn := workload_free_fn s;
     workload_free_context := workload_free_context s;
     last_error := e |}.

(** ** The world outside the session *)

(** One answer of [poll]: its return value, the [errno] it leaves when that
    is -1, and the [revents] it reports for the entries it was given. *)
Record poll_answer : Set := {
  poll_ret : Z;
  poll_errno : Z;
  poll_revents : list Z
}.

(** One call of the registered log function: the function and context it was
    called with, the line buffer it was handed and the verbosity. *)
Record log_call : Set := {
  log_function : nat;
  log_line : list Buf.cell;
  log_verbose : gearman_verbose_t;
  log_ctx : option nat
}.

(** The world: whether the allocator is out of memory, what the coming
    calls of [poll] will answer, the thread's [errno], and the calls the log
    function has received so far (oldest first). *)
Record world : Set := {
  heap_exhausted : bool;
  poll_answers : list poll_answer;
  errno : Z;
  log_calls : list log_call
}.

Definition set_poll_answers (a : list poll_answer) (w : world) : world :=
  {| heap_exhausted := heap_exhausted w; poll_answers := a; errno := errno w;
     log_calls := log_calls w |}.

Definition set_errno (e : Z) (w : world) : world :=
  {| heap_exhausted := heap_exhausted w; poll_answers := poll_answers w;
     errno := e; log_calls := log_calls w |}.

Definition set_non_blocking (v : bool) (o : gearman_state_options_t) :=
  {| allocated := allocated o; dont_track_packets := dont_track_packets o;
     non_blocking := v; stored_non_blocking := stored_non_blocking o |}.

Definition set_dont_track_packets (v : bool) (o : gearman_state_options_t) :=
  {| allocated := allocated o; dont_track_packets := v;
     non_blocking := non_blocking o;
     stored_non_blocking := stored_non_blocking o |}.

Definition set_stored_non_blocking (v : bool) (o : gearman_state_options_t) :=
  {| allocated := allocated o; dont_track_packets := dont_track_packets o;
     non_blocking := non_blocking o; stored_non_blocking := v |}.

(** ** What state.c takes from elsewhere *)

(** The constants that state.c takes from headers (the
    size of the error buffers, the system's [POLLOUT] and [EINTR]) and the
    entry points of the packet codec and of the connection engine, which
    are separate translation units.  An entry point is taken as it is called
    in state.c: it works on the object it is handed, a connection call under
    the options of the session the connection belongs to, and answers with
    its return code and that object.  What such a call records in the session
    besides (by section 7 of the spec, an error message when it fails) is
    not part of this model: where a property below speaks of [last_error]
    after such a call, it speaks of what state.c itself has written.
    [gearman_connection_clone] is
    handed the destination session and the connection to copy: it answers
    with the session as the new connection leaves it, or with nothing when it
    returns NULL.  [gearman_log_fn] is the code behind the log functions a
    caller can register: for a call, with the function, line, verbosity and
    context it is made with, and the [errno] at the call, it gives the
    [errno] the function leaves, the one thing state.c reads again after
    such a call. *)
Class Collaborators : Type := {
  GEARMAN_MAX_ERROR_SIZE : nat;
  POLLOUT : Z;
  EINTR : Z;
  gearman_log_fn : log_call -> Z -> Z;
  gearman_add_options :
    gearman_state_options_t -> gearman_options_t -> gearman_state_options_t;
  gearman_packet_create_args :
    gearman_state_st -> gearman_magic_t -> gearman_command_t ->
    list (list byte) -> gearman_return_t * gearman_packet_st;
  gearman_packet_free : gearman_packet_st -> gearman_packet_st;
  gearman_connection_flush :
    gearman_state_options_t -> gearman_connection_st ->
    gearman_return_t * gearman_connection_st;
  gearman_connection_send :
    gearman_state_options_t -> gearman_connection_st -> gearman_packet_st ->
    bool -> gearman_return_t * gearman_connection_st;
  gearman_connection_recv :
    gearman_state_options_t -> gearman_connection_st -> bool ->
    gearman_return_t * gearman_connection_st;
  gearman_connection_set_revents :
    gearman_state_options_t -> gearman_connection_st -> Z ->
    gearman_return_t * gearman_connection_st;
  gearman_connection_clone :
    gearman_state_st -> gearman_connection_st -> option gearman_state_st
}.

(** The registered log function is called: the call is recorded, and [errno]
    is what the function leaves. *)
Definition add_log_call {X : Collaborators} (c : log_call) (w : world)
  : world :=
  {| heap_exhausted := heap_exhausted w; poll_answers := poll_answers w;
     errno := gearman_log_fn c (errno w); log_calls := log_calls w ++ [c] |}.

(** ** The operations of state.c *)

Section State.

Context {X : Collaborators}.

(** *** gearman_set_option and the plain setters *)

Definition gearman_set_option (state : gearman_state_st)
    (option : gearman_options_t) (value : bool)
  : gearman_return_t * gearman_state_st :=
  match option with
  | GEARMAN_NON_BLOCKING =>
      (GEARMAN_SUCCESS,
       set_options (set_non_blocking value (options state)) state)
  | GEARMAN_DONT_TRACK_PACKETS =>
      (GEARMAN_SUCCESS,
       set_options (set_dont_track_packets value (options state)) state)
  | GEARMAN_MAX
  | GEARMAN_OPTION_OTHER _ => (GEARMAN_INVALID_COMMAND, state)
  end.

Definition gearman_timeout (state : gearman_state_st) : Z := timeout state.

Definition gearman_set_timeout (state : gearman_state_st) (t : Z)
  : gearman_state_st :=
  {| options := options state; verbose := verbose state;
     con_count := con_count state; packet_count := packet_count state;
     sending := sending state; last_errno := last_errno state;
     timeout := t; con_list := con_list state;
     packet_list := packet_list state; pfds := pfds state;
     log_fn := log_fn state; log_context := log_context state;
     event_watch_fn := event_watch_fn state;
     event_watch_context := event_watch_context state;
     workload_malloc_fn := workload_malloc_fn state;
     workload_malloc_context := workload_malloc_context state;
     workload_free_fn := workload_free_fn state;
     workload_free_context := workload_free_context state;
     last_error := last_error state |}.

Definition gearman_set_log_fn (state : gearman_state_st)
    (function context : option nat) (verbosity : Z) : gearman_state_st :=
  {| options := options state; verbose := verbosity;
     con_count := con_count state; packet_count := packet_count state;
     sending := sending state; last_errno := last_errno state;
     timeout := timeout state; con_list := con_list state;
     packet_list := packet_list state; pfds := pfds state;
     log_fn := function; log_context := context;
     event_watch_fn := event_watch_fn state;
     event_watch_context := event_watch_context state;
     workload_malloc_fn := workload_malloc_fn state;
     workload_malloc_context := workload_malloc_context state;
     workload_free_fn := workload_free_fn state;
     workload_free_context := workload_free_context state;
     last_error := last_error state |}.

(** *** gearman_state_create *)

(** The loop over the caller's option array, which ends at the first
    [GEARMAN_MAX]; an array without one is read past its end. *)
Fixpoint create_options (o : gearman_state_options_t)
    (options : list gearman_options_t) : outcome gearman_state_options_t :=
  match options with
  | [] => Undefined
  | opt :: rest =>
      if decide (opt = GEARMAN_MAX) then Returns o
      else create_options (gearman_add_options o opt) rest
  end.

(** [state] is the memory the caller supplies, if any; NULL makes the
    function allocate.  Every field is assigned except the error buffer,
    of which only the first char is: the rest keeps what the memory held
    (nothing determinate when it was just allocated). *)
Definition gearman_state_create (state : option gearman_state_st)
    (options : option (list gearman_options_t)) (w : world)
  : outcome (option gearman_state_st * world) :=
  let memory :=
    match state with
    | None =>
        if heap_exhausted w then None
        else Some (true, Buf.fresh GEARMAN_MAX_ERROR_SIZE)
    | Some old => Some (false, last_error old)
    end in
  match memory with
  | None => Returns (None, w)
  | Some (is_allocated, error_buffer) =>
      let o := {| allocated := is_allocated; dont_track_packets := false;
                  non_blocking := false; stored_non_blocking := false |} in
      do o <- match options with
              | None => Returns o
              | Some l => create_options o l
              end;
      do error_buffer <- Buf.store error_buffer 0 [Buf.NUL];
      Returns
        (Some {| options := o; verbose := 0; con_count := 0;
                 packet_count := 0; sending := 0; last_errno := 0;
                 timeout := -1; con_list := []; packet_list := [];
                 pfds := []; log_fn := None; log_context := None;
                 event_watch_fn := None; event_watch_context := None;
                 workload_malloc_fn := None;
                 workload_malloc_context := None;
                 workload_free_fn := None; workload_free_context := None;
                 last_error := error_buffer |}, w)
  end.

(** *** gearman_state_clone *)

(** The loop over the source's connections.  A clone that fails makes
    [gearman_state_clone] free the destination and return NULL. *)
Fixpoint clone_connections (conns : list gearman_connection_st)
    (destination : gearman_state_st) : option gearman_state_st :=
  match conns with
  | [] => Some destination
  | con :: rest =>
      match gearman_connection_clone destination con with
      | None => None
      | Some destination => clone_connections rest destination
      end
  end.

(** [source] is the session the source pointer refers to, a session other
    than the destination; a NULL result stands for both NULL returns, the
    destination that could not be created and the one freed again. *)
Definition gearman_state_clone (destination source : option gearman_state_st)
    (w : world) : outcome (option gearman_state_st * world) :=
  do '(destination, w) <- gearman_state_create destination None w;
  match source, destination with
  | Some source, Some destination =>
      let destination :=
        snd (gearman_set_option destination GEARMAN_NON_BLOCKING
               (non_blocking (options source))) in
      let destination :=
        snd (gearman_set_option destination GEARMAN_DONT_TRACK_PACKETS
               (dont_track_packets (options source))) in
      let destination := gearman_set_timeout destination (timeout source) in
      Returns (clone_connections (con_list source) destination, w)
  | _, _ => Returns (destination, w)
  end.

(** The call [gearman_state_clone(state, state)], in which source and
    destination are one object: [gearman_state_create] has reset it before
    anything is read through [source], and every later read through
    [source] sees what has been written through [destination].  The loop
    starts from the connection list as it is then. *)
Definition gearman_state_clone_onto_itself (state : gearman_state_st)
    (w : world) : outcome (option gearman_state_st * world) :=
  do '(destination, w) <- gearman_state_create (Some state) None w;
  match destination with
  | Some destination =>
      let destination :=
        snd (gearman_set_option destination GEARMAN_NON_BLOCKING
               (non_blocking (options destination))) in
      let destination :=
        snd (gearman_set_option destination GEARMAN_DONT_TRACK_PACKETS
               (dont_track_packets (options destination))) in
      let destination :=
        gearman_set_timeout destination (timeout destination) in
      Returns (clone_connections (con_list destination) destination, w)
  | None => Returns (None, w)
  end.

(** *** gearman_state_set_error *)

(** [function] is the text of the function-name string and [formatted] what
    the conversion of [format] with its arguments produces.  The steps are
    those of the C body: the name is copied into the local [log_buffer],
    [':'] is put behind it, [vsnprintf] gets what is left of the buffer,
    and [size] ends up as the length the whole line would have had. *)
Definition gearman_state_set_error (state : gearman_state_st)
    (function formatted : list byte) (w : world)
  : outcome (gearman_state_st * world) :=
  let size := length function in
  do log_buffer <- Buf.store (Buf.fresh GEARMAN_MAX_ERROR_SIZE) 0 function;
  do log_buffer <- Buf.store log_buffer size (Buf.text ":");
  let size := S size in
  do '(log_buffer, printed) <-
    Buf.vsnprintf log_buffer size (GEARMAN_MAX_ERROR_SIZE - size) formatted;
  let size := size + printed in
  match log_fn state with
  | None =>
      let size :=
        if decide (GEARMAN_MAX_ERROR_SIZE <= size)
        then GEARMAN_MAX_ERROR_SIZE - 1 else size in
      Returns
        (set_last_error (Buf.memcpy (last_error state) log_buffer (size + 1))
           state, w)
  | Some f =>
      Returns
        (state,
         add_log_call {| log_function := f; log_line := log_buffer;
                         log_verbose := GEARMAN_VERBOSE_FATAL;
                         log_ctx := log_context state |} w)
  end.

(** *** gearman_flush_all *)

Fixpoint flush_all_loop (o : gearman_state_options_t)
    (conns : list gearman_connection_st)
  : gearman_return_t * list gearman_connection_st :=
  match conns with
  | [] => (GEARMAN_SUCCESS, [])
  | con :: rest =>
      if decide (Z.land (events con) POLLOUT <> 0%Z) then
        let '(ret, rest') := flush_all_loop o rest in (ret, con :: rest')
      else
        let '(ret, con') := gearman_connection_flush o con in
        if gearman_failed ret then (ret, con' :: rest)
        else
          let '(ret, rest') := flush_all_loop o rest in (ret, con' :: rest')
  end.

Definition gearman_flush_all (state : gearman_state_st)
  : gearman_return_t * gearman_state_st :=
  let '(ret, conns) := flush_all_loop (options state) (con_list state) in
  (ret, set_con_list conns state).

(** *** gearman_ready *)

(** The scan of the list: the index of the connection returned, and the
    list with that connection's flag cleared. *)
Fixpoint ready_scan (conns : list gearman_connection_st)
  : option (nat * list gearman_connection_st) :=
  match conns with
  | [] => None
  | con :: rest =>
      if ready con then Some (0, set_ready false con :: rest)
      else
        match ready_scan rest with
        | Some (i, rest') => Some (S i, con :: rest')
        | None => None
        end
  end.

Definition gearman_ready (state : gearman_state_st)
  : option nat * gearman_state_st :=
  match ready_scan (con_list state) with
  | Some (i, conns) => (Some i, set_con_list conns state)
  | None => (None, state)
  end.

(** *** gearman_wait *)

(** The first loop: one polling entry per connection that wants events,
    written at index [x]; a write past the array is undefined.  The result
    is the number of entries written and the array. *)
Fixpoint wait_fill (conns : list gearman_connection_st)
    (pfds : list (option pollfd)) (x : nat)
  : outcome (nat * list (option pollfd)) :=
  match conns with
  | [] => Returns (x, pfds)
  | con :: rest =>
      if decide (events con = 0%Z) then wait_fill rest pfds x
      else if decide (x < length pfds) then
        wait_fill rest
          (<[x := Some {| pfd_fd := fd con; pfd_events := events con;
                          pfd_revents := 0 |}]> pfds)
          (S x)
      else Undefined
  end.

(** [poll(pfds, nfds, timeout)] answering [a]: on -1 it leaves [errno];
    otherwise it reports [revents] in each of the first [nfds] entries. *)
Definition poll (pfds : list (option pollfd)) (nfds : nat) (timeout : Z)
    (a : poll_answer) (w : world) : Z * list (option pollfd) * world :=
  if decide (poll_ret a = -1)%Z then (-1, pfds, set_errno (poll_errno a) w)%Z
  else
    (poll_ret a,
     imap (fun i entry =>
             if decide (i < nfds) then
               (fun p => {| pfd_fd := pfd_fd p; pfd_events := pfd_events p;
                            pfd_revents := default 0%Z (poll_revents a !! i) |})
                 <$> entry
             else entry) pfds,
     w).

(** The [while (1)] loop around [poll], one turn per answer of the world.
    It is left with [inr ret] by the [break], or with [inl GEARMAN_ERRNO]
    by the [return] inside. *)
Fixpoint wait_poll (state : gearman_state_st) (x : nat)
    (answers : list poll_answer) (w : world)
  : outcome ((gearman_return_t + Z) * gearman_state_st * world) :=
  match answers with
  | [] => Waiting
  | a :: answers =>
      let '(ret, entries, w) :=
        poll (pfds state) x (timeout state) a (set_poll_answers answers w) in
      let state := set_pfds entries state in
      if decide (ret = -1)%Z then
        if decide (errno w = EINTR) then wait_poll state x answers w
        else
          do '(state, w) <-
            gearman_state_set_error state (Buf.text "gearman_wait")
              (Buf.text "poll:" ++ Buf.decimal (errno w)) w;
          let state := set_last_errno (errno w) state in
          Returns (inl GEARMAN_ERRNO, state, w)
      else Returns (inr ret, state, w)
  end.

(** The last loop: the [revents] of entry [x] goes to the connection the
    entry was made for; the first connection that does not take it with
    [GEARMAN_SUCCESS] ends the loop. *)
Fixpoint wait_distribute (o : gearman_state_options_t)
    (conns : list gearman_connection_st) (pfds : list (option pollfd))
    (x : nat) : outcome (gearman_return_t * list gearman_connection_st) :=
  match conns with
  | [] => Returns (GEARMAN_SUCCESS, [])
  | con :: rest =>
      if decide (events con = 0%Z) then
        do '(gret, rest') <- wait_distribute o rest pfds x;
        Returns (gret, con :: rest')
      else
        match pfds !! x with
        | Some (Some p) =>
            let '(gret, con') :=
              gearman_connection_set_revents o con (pfd_revents p) in
            if not_success gret then Returns (gret, con' :: rest)
            else
              do '(gret, rest') <- wait_distribute o rest pfds (S x);
              Returns (gret, con' :: rest')
        | _ => Undefined
        end
  end.

(** From the [while (1)] loop to the end of the function, [x] being the
    number of polling entries. *)
Definition wait_polled (state : gearman_state_st) (x : nat) (w : world)
  : outcome (gearman_return_t * gearman_state_st * world) :=
  do '(polled, state, w) <- wait_poll state x (poll_answers w) w;
  match polled with
  | inl gret => Returns (gret, state, w)
  | inr ret =>
      if decide (ret = 0)%Z then
        do '(state, w) <-
          gearman_state_set_error state (Buf.text "gearman_wait")
            (Buf.text "timeout reached") w;
        Returns (GEARMAN_TIMEOUT, state, w)
      else
        do '(gret, conns) <-
          wait_distribute (options state) (con_list state) (pfds state) 0;
        Returns (gret, set_con_list conns state, w)
  end.

(** The polling array grown to [con_count] entries, the new ones
    indeterminate. *)
Definition wait_grown (state : gearman_state_st) : gearman_state_st :=
  set_pfds
    (pfds state ++ replicate (con_count state - pfds_size state) None) state.

Definition gearman_wait (state : gearman_state_st) (w : world)
  : outcome (gearman_return_t * gearman_state_st * world) :=
  let grown :=
    if decide (pfds_size state < con_count state) then
      if heap_exhausted w then None else Some (wait_grown state)
    else Some state in
  match grown with
  | None =>
      do '(state, w) <-
        gearman_state_set_error state (Buf.text "gearman_wait")
          (Buf.text "realloc") w;
      Returns (GEARMAN_MEMORY_ALLOCATION_FAILURE, state, w)
  | Some state =>
      do '(x, entries) <- wait_fill (con_list state) (pfds state) 0;
      let state := set_pfds entries state in
      if decide (x = 0) then
        do '(state, w) <-
          gearman_state_set_error state (Buf.text "gearman_wait")
            (Buf.text "no active file descriptors") w;
        Returns (GEARMAN_NO_ACTIVE_FDS, state, w)
      else wait_polled state x w
  end.

(** *** gearman_echo *)

Definition gearman_state_push_blocking (state : gearman_state_st)
  : gearman_state_st :=
  let state :=
    set_options
      (set_stored_non_blocking (non_blocking (options state)) (options state))
      state in
  set_options (set_non_blocking false (options state)) state.

(** Modelled from the spec: [gearman_state_pop_non_blocking] is defined in
    a header, not in state.c.  By sections 4.2 and
    4.3 it is the counterpart of the push that restores the mode:
    [non_blocking] takes back the value kept in [stored_non_blocking]. *)
Definition gearman_state_pop_non_blocking (state : gearman_state_st)
  : gearman_state_st :=
  set_options
    (set_non_blocking (stored_non_blocking (options state)) (options state))
    state.

(** [memcmp(a, b, n) != 0]. *)
Definition memcmp_differs (a b : list byte) (n : nat) : bool :=
  bool_decide (take n a <> take n b).

(** How the loop of [gearman_echo] is left. *)
Inductive echo_exit : Set :=
| Echo_return (ret : gearman_return_t)
| Echo_corruption
| Echo_done.

(** The loop over the connections, [request] being the ECHO_REQ packet. *)
Fixpoint echo_loop (o : gearman_state_options_t) (request : gearman_packet_st)
    (workload : list byte) (conns : list gearman_connection_st)
  : echo_exit * list gearman_connection_st :=
  match conns with
  | [] => (Echo_done, [])
  | con :: rest =>
      let '(ret, con) := gearman_connection_send o con request true in
      if not_success ret then (Echo_return ret, con :: rest)
      else
        let '(ret, con) := gearman_connection_recv o con true in
        if not_success ret then (Echo_return ret, con :: rest)
        else
          let freed := set_packet (gearman_packet_free (packet con)) con in
          if negb (bool_decide (data_size (packet con) = length workload))
             || memcmp_differs workload (data (packet con)) (length workload)
          then (Echo_corruption, freed :: rest)
          else
            let '(exit, rest') := echo_loop o request workload rest in
            (exit, freed :: rest')
  end.

(** [workload] with its length stands for the pair [workload],
    [workload_size].  Freeing the local request packet leaves nothing
    behind in this model. *)
Definition gearman_echo (state : gearman_state_st) (workload : list byte)
    (w : world) : outcome (gearman_return_t * gearman_state_st * world) :=
  let '(ret, request) :=
    gearman_packet_create_args state GEARMAN_MAGIC_REQUEST
      GEARMAN_COMMAND_ECHO_REQ [workload] in
  if not_success ret then Returns (ret, state, w)
  else
    let state := gearman_state_push_blocking state in
    let '(exit, conns) :=
      echo_loop (options state) request workload (con_list state) in
    let state := set_con_list conns state in
    match exit with
    | Echo_return ret =>
        let state := gearman_state_pop_non_blocking state in
        Returns (ret, state, w)
    | Echo_corruption =>
        let state := gearman_state_pop_non_blocking state in
        do '(state, w) <-
          gearman_state_set_error state (Buf.text "gearman_echo")
            (Buf.text "corruption during echo") w;
        Returns (GEARMAN_ECHO_DATA_CORRUPTION, state, w)
    | Echo_done =>
        let state := gearman_state_pop_non_blocking state in
        Returns (GEARMAN_SUCCESS, state, w)
    end.

End State.

(** ** A loopback instance

    A concrete codec and connection engine on which the operations can be
    run: the buffer size and system constants are those of libgearman on
    Linux, and the server behind a connection is chosen by its port (4730
    echoes, 4731 alters the first byte or adds one, 4732 drops the
    connection before answering, 4733 refuses the connection). *)
Module Sample.

Definition no_packet : gearman_packet_st :=
  {| magic := GEARMAN_MAGIC_TEXT; command := GEARMAN_COMMAND_TEXT;
     args := []; data := [] |}.

Definition connection (p events_wanted : Z) (is_ready : bool)
  : gearman_connection_st :=
  {| host := Buf.text "127.0.0.1"; port := p; fd := 3 + (p - 4730);
     events := events_wanted; revents := 0; ready := is_ready;
     send_state := SEND_IDLE; recv_state := RECV_READ;
     packet := no_packet |}.

Definition add_options (o : gearman_state_options_t) (opt : gearman_options_t)
  : gearman_state_options_t :=
  match opt with
  | GEARMAN_NON_BLOCKING => set_non_blocking true o
  | GEARMAN_DONT_TRACK_PACKETS => set_dont_track_packets true o
  | _ => o
  end.

Definition packet_create_args (state : gearman_state_st)
    (m : gearman_magic_t) (c : gearman_command_t) (a : list (list byte))
  : gearman_return_t * gearman_packet_st :=
  let packet := {| magic := m; command := c; args := []; data := concat a |} in
  if decide (length (concat a) <= 64) then (GEARMAN_SUCCESS, packet)
  else (GEARMAN_ARGUMENT_TOO_LARGE, no_packet).

Definition packet_free (p : gearman_packet_st) : gearman_packet_st :=
  {| magic := magic p; command := command p; args := []; data := [] |}.

Definition connection_flush (o : gearman_state_options_t)
    (con : gearman_connection_st) : gearman_return_t * gearman_connection_st :=
  if decide (port con = 4733)%Z then (GEARMAN_COULD_NOT_CONNECT, con)
  else
    (GEARMAN_SUCCESS,
     {| host := host con; port := port con; fd := fd con;
        events := events con; revents := revents con; ready := ready con;
        send_state := SEND_IDLE; recv_state := recv_state con;
        packet := packet con |}).

(** Sending leaves the request in the connection's packet slot, where the
    sample server finds it. *)
Definition connection_send (o : gearman_state_options_t)
    (con : gearman_connection_st) (request : gearman_packet_st)
    (flush : bool) : gearman_return_t * gearman_connection_st :=
  if decide (port con = 4733)%Z then (GEARMAN_COULD_NOT_CONNECT, con)
  else (GEARMAN_SUCCESS, set_packet request con).

Definition respond (p : Z) (request : list byte) : list byte :=
  if decide (p = 4731)%Z then
    match request with
    | [] => [x21]
    | b :: rest => (if decide (b = x58) then x59 else x58) :: rest
    end
  else request.

Definition connection_recv (o : gearman_state_options_t)
    (con : gearman_connection_st) (recv_data : bool)
  : gearman_return_t * gearman_connection_st :=
  if decide (port con = 4732)%Z then (GEARMAN_LOST_CONNECTION, con)
  else
    (GEARMAN_SUCCESS,
     set_packet {| magic := GEARMAN_MAGIC_RESPONSE;
                   command := GEARMAN_COMMAND_ECHO_RES; args := [];
                   data := respond (port con) (data (packet con)) |} con).

Definition connection_set_revents (o : gearman_state_options_t)
    (con : gearman_connection_st) (r : Z)
  : gearman_return_t * gearman_connection_st :=
  (GEARMAN_SUCCESS,
   {| host := host con; port := port con; fd := fd con;
      events := Z.land (events con) (Z.lnot r); revents := r;
      ready := bool_decide (r <> 0%Z); send_state := send_state con;
      recv_state := recv_state con; packet := packet con |}).

(** The copy has the endpoint of the original and no socket yet; it is
    linked at the head of the destination's list and counted.  A connection
    to port 4733 cannot be cloned. *)
Definition connection_clone (destination : gearman_state_st)
    (con : gearman_connection_st) : option gearman_state_st :=
  let copy := {| host := host con; port := port con; fd := -1; events := 0;
                 revents := 0; ready := false; send_state := SEND_IDLE;
                 recv_state := RECV_READ; packet := no_packet |} in
  if decide (port con = 4733)%Z then None else
  Some {| options := options destination; verbose := verbose destination;
          con_count := S (con_count destination);
          packet_count := packet_count destination;
          sending := sending destination;
          last_errno := last_errno destination;
          timeout := timeout destination;
          con_list := copy :: con_list destination;
          packet_list := packet_list destination; pfds := pfds destination;
          log_fn := log_fn destination;
          log_context := log_context destination;
          event_watch_fn := event_watch_fn destination;
          event_watch_context := event_watch_context destination;
          workload_malloc_fn := workload_malloc_fn destination;
          workload_malloc_context := workload_malloc_context destination;
          workload_free_fn := workload_free_fn destination;
          workload_free_context := workload_free_context destination;
          last_error := last_error destination |}.

(** The log functions of the sample: function 8 writes its line to a
    descriptor that is closed, which leaves [EBADF] (9) in [errno]; any
    other function leaves [errno] as it finds it. *)
Definition log_fn_errno (c : log_call) (e : Z) : Z :=
  if decide (log_function c = 8) then 9%Z else e.

Definition loopback : Collaborators :=
  {| GEARMAN_MAX_ERROR_SIZE := 1024;
     POLLOUT := 4;
     EINTR := 4;
     gearman_log_fn := log_fn_errno;
     gearman_add_options := add_options;
     gearman_packet_create_args := packet_create_args;
     gearman_packet_free := packet_free;
     gearman_connection_flush := connection_flush;
     gearman_connection_send := connection_send;
     gearman_connection_recv := connection_recv;
     gearman_connection_set_revents := connection_set_revents;
     gearman_connection_clone := connection_clone |}.

(** A session as [gearman_state_create] leaves it in allocated memory,
    then given connections, a blocking mode and possibly a log function. *)
Definition session (conns : list gearman_connection_st) (mode : bool)
    (sink : option nat) : gearman_state_st :=
  {| options := {| allocated := true; dont_track_packets := false;
                   non_blocking := mode; stored_non_blocking := false |};
     verbose := 0; con_count := length conns; packet_count := 0;
     sending := 0; last_errno := 0; timeout := -1; con_list := conns;
     packet_list := []; pfds := []; log_fn := sink; log_context := None;
     event_watch_fn := None; event_watch_context := None;
     workload_malloc_fn := None; workload_malloc_context := None;
     workload_free_fn := None; workload_free_context := None;
     last_error := Some Buf.NUL :: Buf.fresh 1023 |}.

Definition calm (answers : list poll_answer) : world :=
  {| heap_exhausted := false; poll_answers := answers; errno := 0;
     log_calls := [] |}.

Definition out_of_memory : world :=
  {| heap_exhausted := true; poll_answers := []; errno := 0;
     log_calls := [] |}.

Definition interrupted : poll_answer :=
  {| poll_ret := -1; poll_errno := 4; poll_revents := [] |}.

Definition hello : list byte := Buf.text "hello".

End Sample.

(** ** Vocabulary of the properties *)

Section Vocabulary.

Context {X : Collaborators}.

(** The line an error report stands for, cut to what the error buffer can
    hold besides the terminator: ["<function>:<formatted message>"]. *)
Definition error_line (function formatted : list byte) : list byte :=
  take (GEARMAN_MAX_ERROR_SIZE - 1) (function ++ Buf.text ":" ++ formatted).

(** What a call of [gearman_state_set_error] leaves behind when the name
    and the colon leave room for a terminator: without a log function, the
    line and its terminator at the start of [last_error]; with one, a call
    of it at [GEARMAN_VERBOSE_FATAL] with the line buffer, and the session
    as it was. *)
Definition error_recorded (function formatted : list byte)
    (state : gearman_state_st) (w : world) : gearman_state_st * world :=
  match log_fn state with
  | None =>
      (set_last_error
         ((Some <$> (error_line function formatted ++ [Buf.NUL])) ++
          drop (S (length (error_line function formatted)))
            (last_error state)) state, w)
  | Some f =>
      (state,
       add_log_call
         {| log_function := f;
            log_line :=
              (Some <$> (error_line function formatted ++ [Buf.NUL])) ++
              replicate (GEARMAN_MAX_ERROR_SIZE - 1 -
                         length (error_line function formatted)) None;
            log_verbose := GEARMAN_VERBOSE_FATAL;
            log_ctx := log_context state |} w)
  end.

(** [last_error] holds the line of the report and its terminator. *)
Definition reports (function formatted : list byte)
    (state : gearman_state_st) : Prop :=
  exists rest,
    last_error state =
    (Some <$> (error_line function formatted ++ [Buf.NUL])) ++ rest.

(** The buffer starts with the line of the report and its terminator. *)
Definition holds_report (function formatted : list byte)
    (buf : list Buf.cell) : Prop :=
  exists rest,
    buf = (Some <$> (error_line function formatted ++ [Buf.NUL])) ++ rest.

(** The one call of the log function that reports an error: the function
    registered in [state], a buffer of [GEARMAN_MAX_ERROR_SIZE] chars that
    starts with the line of the report and its terminator,
    [GEARMAN_VERBOSE_FATAL] and the log context of [state]. *)
Definition report_call (function formatted : list byte)
    (state : gearman_state_st) (c : log_call) : Prop :=
  log_fn state = Some (log_function c) /\
  holds_report function formatted (log_line c) /\
  length (log_line c) = GEARMAN_MAX_ERROR_SIZE /\
  log_verbose c = GEARMAN_VERBOSE_FATAL /\
  log_ctx c = log_context state.

(** What is asked of [gearman_connection_clone]: putting a connection
    into a session changes neither the options, nor the timeout, nor the
    packets of that session. *)
Definition clone_keeps_session : Prop :=
  forall destination con destination',
    gearman_connection_clone destination con = Some destination' ->
    options destination' = options destination /\
    timeout destination' = timeout destination /\
    packet_list destination' = packet_list destination /\
    packet_count destination' = packet_count destination.



(** The server a connection is for. *)
Definition server (con : gearman_connection_st) : list byte * Z :=
  (host con, port con).

(** Modelled from the spec: [gearman_connection_clone] is defined with the
    connection engine, not in state.c.  By section 4.3 a connection
    constructed for a session is linked at the head of the session's
    connection sequence and counted in [con_count]; the clone of a
    connection is a connection for the same server. *)
Definition clone_links_copy : Prop :=
  forall destination con destination',
    gearman_connection_clone destination con = Some destination' ->
    con_count destination' = S (con_count destination) /\
    exists copy,
      con_list destination' = copy :: con_list destination /\
      server copy = server con.

(** The connection can be cloned, into whatever session. *)
Definition clonable (con : gearman_connection_st) : Prop :=
  forall destination, is_Some (gearman_connection_clone destination con).

(** The connection cannot be cloned. *)
Definition unclonable (con : gearman_connection_st) : Prop :=
  forall destination, gearman_connection_clone destination con = None.

(** The session as state.c hands it to the first loop of [gearman_wait]
    when the polling array could be had. *)
Definition wait_ready (state : gearman_state_st) : gearman_state_st :=
  if decide (pfds_size state < con_count state) then wait_grown state
  else state.

(** The desired-events mask has the writable bit set. *)
Definition waits_for_write (con : gearman_connection_st) : Prop :=
  Z.land (events con) POLLOUT <> 0%Z.

(** What [gearman_flush_all] does to one connection it reaches. *)
Definition flush_step (o : gearman_state_options_t)
    (con : gearman_connection_st) : gearman_connection_st :=
  if decide (waits_for_write con) then con
  else snd (gearman_connection_flush o con).

(** A connection [gearman_flush_all] gets past: it is skipped, or its
    flush ends with [GEARMAN_SUCCESS] or [GEARMAN_IO_WAIT]. *)
Definition flush_passes (o : gearman_state_options_t)
    (con : gearman_connection_st) : Prop :=
  waits_for_write con \/
  gearman_failed (fst (gearman_connection_flush o con)) = false.

(** A connection at which [gearman_flush_all] stops. *)
Definition flush_fails (o : gearman_state_options_t)
    (con : gearman_connection_st) : Prop :=
  ~ waits_for_write con /\
  gearman_failed (fst (gearman_connection_flush o con)) = true.

(** The number of polling entries [gearman_wait] makes. *)
Definition polled_entries (conns : list gearman_connection_st) : nat :=
  length (filter (fun con => events con <> 0%Z) conns).

(** [poll] was interrupted by a signal. *)
Definition is_interrupted (a : poll_answer) : Prop :=
  poll_ret a = (-1)%Z /\ poll_errno a = EINTR.

(** The connection as sending [request] and receiving the answer leave it,
    when both succeed. *)
Definition echo_exchange (o : gearman_state_options_t)
    (request : gearman_packet_st) (con : gearman_connection_st)
  : option gearman_connection_st :=
  let '(ret, con) := gearman_connection_send o con request true in
  if not_success ret then None
  else
    let '(ret, con) := gearman_connection_recv o con true in
    if not_success ret then None else Some con.

(** The exchange on [con] succeeds and brings back exactly [workload]. *)
Definition echo_intact (o : gearman_state_options_t)
    (request : gearman_packet_st) (workload : list byte)
    (con : gearman_connection_st) : Prop :=
  exists answered, echo_exchange o request con = Some answered /\
                   data (packet answered) = workload.

(** The exchange on [con] succeeds and brings back data of another size
    or with other bytes. *)
Definition echo_corrupted (o : gearman_state_options_t)
    (request : gearman_packet_st) (workload : list byte)
    (con : gearman_connection_st) : Prop :=
  exists answered, echo_exchange o request con = Some answered /\
    (data_size (packet answered) <> length workload \/
     take (length workload) (data (packet answered)) <> workload).

(** The options [gearman_echo] runs its exchanges under. *)
Definition echo_options (state : gearman_state_st) : gearman_state_options_t :=
  options (gearman_state_push_blocking state).

End Vocabulary.

(** ** More of state.c *)

Section Logging.

Context {X : Collaborators}.

(** The name [gearman_verbose_name] gives a verbosity level; the function is
    defined in another translation unit. *)
Variable gearman_verbose_name : gearman_verbose_t -> list byte.



End Logging.

Section Callers.

Context {X : Collaborators}.

(** The caller's loop over [gearman_ready]: at most [n] calls, until one
    returns NULL; the result is the connections returned, in the order of
    the calls. *)
Fixpoint ready_drain (n : nat) (state : gearman_state_st)
  : list nat * gearman_state_st :=
  match n with
  | O => ([], state)
  | S n =>
      match gearman_ready state with
      | (Some i, state) =>
          let '(found, state) := ready_drain n state in (i :: found, state)
      | (None, state) => ([], state)
      end
  end.

(** The positions, counted from [i], of the connections that are ready. *)
Fixpoint ready_indices (i : nat) (conns : list gearman_connection_st)
  : list nat :=
  match conns with
  | [] => []
  | con :: rest =>
      if ready con then i :: ready_indices (S i) rest
      else ready_indices (S i) rest
  end.

(** What the last loop of [gearman_wait] is meant to do, told without the
    polling array: the connections that want events take, in list order, the
    [revents] that [poll] reported, one each, a missing report counting as
    0; the others are passed over; the first connection that does not take
    its events with [GEARMAN_SUCCESS] ends the delivery. *)
Fixpoint deliver (o : gearman_state_options_t)
    (conns : list gearman_connection_st) (reported : list Z)
  : gearman_return_t * list gearman_connection_st :=
  match conns with
  | [] => (GEARMAN_SUCCESS, [])
  | con :: rest =>
      if decide (events con = 0%Z) then
        let '(gret, rest') := deliver o rest reported in (gret, con :: rest')
      else
        let '(gret, con') :=
          gearman_connection_set_revents o con (default 0%Z (head reported)) in
        if not_success gret then (gret, con' :: rest)
        else
          let '(gret, rest') := deliver o rest (tail reported) in
          (gret, con' :: rest')
  end.

(** Two sessions that differ at most in the connections themselves, the
    polling array, [last_errno] and [last_error]. *)
Definition wait_frame (before after : gearman_state_st) : Prop :=
  options after = options before /\
  verbose after = verbose before /\
  con_count after = con_count before /\
  packet_count after = packet_count before /\
  sending after = sending before /\
  timeout after = timeout before /\
  length (con_list after) = length (con_list before) /\
  packet_list after = packet_list before /\
  log_fn after = log_fn before /\
  log_context after = log_context before /\
  event_watch_fn after = event_watch_fn before /\
  event_watch_context after = event_watch_context before /\
  workload_malloc_fn after = workload_malloc_fn before /\
  workload_malloc_context after = workload_malloc_context before /\
  workload_free_fn after = workload_free_fn before /\
  workload_free_context after = workload_free_context before.

(** The connection as a successful exchange of [gearman_echo] leaves it:
    answered, and the answer's packet freed again. *)
Definition echo_settled (o : gearman_state_options_t)
    (request : gearman_packet_st) (con : gearman_connection_st)
  : gearman_connection_st :=
  match echo_exchange o request con with
  | Some answered => set_packet (gearman_packet_free (packet answered)) answered
  | None => con
  end.

(** The exchange on [con] breaks off with [ret], leaving [con']: the send
    does not succeed, or the send does and the receive does not. *)
Definition echo_breaks (o : gearman_state_options_t)
    (request : gearman_packet_st) (con : gearman_connection_st)
    (ret : gearman_return_t) (con' : gearman_connection_st) : Prop :=
  ret <> GEARMAN_SUCCESS /\
  (gearman_connection_send o con request true = (ret, con') \/
   exists sent,
     gearman_connection_send o con request true = (GEARMAN_SUCCESS, sent) /\
     gearman_connection_recv o sent true = (ret, con')).

(** What can be asked of [gearman_connection_clone] beyond
    [clone_keeps_session]: it changes nothing of the destination but the
    connection list and [con_count]. *)
Definition clone_adds_connections_only : Prop :=
  forall destination con destination',
    gearman_connection_clone destination con = Some destination' ->
    options destination' = options destination /\
    verbose destination' = verbose destination /\
    packet_count destination' = packet_count destination /\
    sending destination' = sending destination /\
    last_errno destination' = last_errno destination /\
    timeout destination' = timeout destination /\
    packet_list destination' = packet_list destination /\
    pfds destination' = pfds destination /\
    log_fn destination' = log_fn destination /\
    log_context destination' = log_context destination /\
    event_watch_fn destination' = event_watch_fn destination /\
    event_watch_context destination' = event_watch_context destination /\
    workload_malloc_fn destination' = workload_malloc_fn destination /\
    workload_malloc_context destination' =
      workload_malloc_context destination /\
    workload_free_fn destination' = workload_free_fn destination /\
    workload_free_context destination' = workload_free_context destination /\
    last_error destination' = last_error destination.

End Callers.

(** ** examples/reverse_client_epoch.cc: the status loop of [main]

    The [do ... while (is_known)] loop that polls the status of the
    submitted job.  [gearman_client_job_status] belongs to the client
    library: what its calls return, which of the four result variables they
    write, and the error text the client holds afterwards are read from a
    list of answers.  [gearman_continue] and [gearman_failed] are the
    library's predicates on return codes. *)
Module Example.

Record status_answer : Set := {
  status_ret : gearman_return_t;
  status_known : option bool;
  status_running : option bool;
  status_numerator : option Z;
  status_denominator : option Z;
  status_error : list byte
}.

(** A line the loop prints: on [std::cout] the status, on [std::cerr] the
    client's error text. *)
Inductive printed : Set :=
| Status_line (known running : bool) (numerator denominator : Z)
| Error_line (message : list byte).

Inductive exit_code : Set := EXIT_SUCCESS | EXIT_FAILURE.

Section Loop.

Variable gearman_continue : gearman_return_t -> bool.
Variable gearman_failed : gearman_return_t -> bool.

(** [is_known] after a call: what the call wrote, or else what the variable
    held; [None] is the variable never written. *)
Definition known_after (is_known : option bool) (a : status_answer)
  : option bool :=
  match status_known a with
  | Some k => Some k
  | None => is_known
  end.

(** The loop, one turn per answer.  [is_known] is declared before the loop
    and keeps its value from turn to turn; [is_running], [numerator] and
    [denominator] are declared in the body and start every turn
    indeterminate.  A [continue] goes to the test of [is_known]; reading a
    variable that was never written is undefined.  The result is the exit
    code, the lines printed and the answers not used. *)
Fixpoint status_loop (answers : list status_answer) (is_known : option bool)
    (out : list printed)
  : outcome (exit_code * list printed * list status_answer) :=
  match answers with
  | [] => Waiting
  | a :: rest =>
      let is_known := known_after is_known a in
      if gearman_continue (status_ret a) then
        match is_known with
        | None => Undefined
        | Some true => status_loop rest is_known out
        | Some false => Returns (EXIT_SUCCESS, out, rest)
        end
      else if gearman_failed (status_ret a) then
        Returns (EXIT_FAILURE, out ++ [Error_line (status_error a)], rest)
      else
        match is_known, status_running a, status_numerator a,
              status_denominator a with
        | Some k, Some r, Some n, Some d =>
            let out := out ++ [Status_line k r n d] in
            if k then status_loop rest is_known out
            else Returns (EXIT_SUCCESS, out, rest)
        | _, _, _, _ => Undefined
        end
  end.

(** The loop as [main] enters it: nothing written to [is_known], and of the
    lines of the loop nothing printed. *)
Definition status_poll (answers : list status_answer)
  : outcome (exit_code * list printed * list status_answer) :=
  status_loop answers None [].

(** An answer after which the loop goes on: the job is reported known, and
    the call either asks to be repeated or succeeds with all four results
    written. *)
Definition goes_on (a : status_answer) : Prop :=
  status_known a = Some true /\
  (gearman_continue (status_ret a) = true \/
   gearman_failed (status_ret a) = false /\
   is_Some (status_running a) /\ is_Some (status_numerator a) /\
   is_Some (status_denominator a)).

(** The status lines the loop prints for answers of this kind: none for a
    call to be repeated. *)
Definition lines_of (answers : list status_answer) : list printed :=
  omap (fun a =>
          if gearman_continue (status_ret a) then None
          else
            match status_known a, status_running a, status_numerator a,
                  status_denominator a with
            | Some k, Some r, Some n, Some d => Some (Status_line k r n d)
            | _, _, _, _ => None
            end) answers.

Definition is_error_line (p : printed) : bool :=
  match p with Error_line _ => true | Status_line _ _ _ _ => false end.

Definition reports_unknown (p : printed) : bool :=
  match p with
  | Status_line known _ _ _ => negb known
  | Error_line _ => false
  end.

End Loop.

End Example.

(** ** Properties *)

Section Properties.

Context {X : Collaborators}.

(** *** Outcomes and character arrays *)

Lemma store_append (pre bytes : list byte) (k : nat) :
  length bytes <= k ->
  Buf.store ((Some <$> pre) ++ replicate k None) (length pre) bytes =
  Returns ((Some <$> (pre ++ bytes)) ++ replicate (k - length bytes) None).
Proof.
  intros Hk. unfold Buf.store.
  rewrite length_app, length_fmap, length_replicate.
  case_decide; [|lia]. f_equal.
  rewrite take_app_length' by (by rewrite length_fmap).
  rewrite drop_app_ge by (rewrite length_fmap; lia).
  rewrite length_fmap, drop_replicate, fmap_app, <- app_assoc.
  do 3 f_equal. lia.
Qed.

Lemma store_overflow (pre bytes : list byte) (k : nat) :
  k < length bytes ->
  Buf.store ((Some <$> pre) ++ replicate k None) (length pre) bytes =
  Undefined.
Proof.
  intros Hk. unfold Buf.store.
  rewrite length_app, length_fmap, length_replicate.
  case_decide; [lia|done].
Qed.

Lemma c_str_terminated (s : list byte) (rest : list Buf.cell) :
  Buf.nul_terminated ((Some <$> (s ++ [Buf.NUL])) ++ rest).
Proof.
  unfold Buf.nul_terminated.
  induction s as [|b s IH]; csimpl.
  - done.
  - case_decide; [done|]. destruct IH as [t ->]. by eexists.
Qed.

Lemma c_str_text (s : list byte) (rest : list Buf.cell) :
  Buf.NUL ∉ s ->
  Buf.c_str ((Some <$> (s ++ [Buf.NUL])) ++ rest) = Some s.
Proof.
  induction s as [|b s IH]; csimpl; intros Hs.
  - done.
  - apply not_elem_of_cons in Hs as [Hb Hs].
    case_decide; [congruence|]. by rewrite (IH Hs).
Qed.

Lemma c_str_unterminated (s : list byte) :
  Buf.NUL ∉ s -> Buf.c_str (Some <$> s) = None.
Proof.
  induction s as [|b s IH]; csimpl; intros Hs; [done|].
  apply not_elem_of_cons in Hs as [Hb Hs].
  case_decide; [congruence|]. by rewrite (IH Hs).
Qed.

(** *** gearman_state_set_error *)

Lemma store_fresh (bytes : list byte) (n : nat) :
  length bytes <= n ->
  Buf.store (Buf.fresh n) 0 bytes =
  Returns ((Some <$> bytes) ++ replicate (n - length bytes) None).
Proof. intros Hn. by apply (store_append [] bytes n). Qed.

Lemma length_error_line (function formatted : list byte) :
  length (error_line function formatted) =
  (GEARMAN_MAX_ERROR_SIZE - 1) `min`
    (S (length function) + length formatted).
Proof.
  unfold error_line. rewrite length_take, !length_app. simpl. lia.
Qed.

Lemma error_line_nul_free (function formatted : list byte) :
  Buf.NUL ∉ function -> Buf.NUL ∉ formatted ->
  Buf.NUL ∉ error_line function formatted.
Proof.
  intros Hfunction Hformatted Hin. unfold error_line in Hin.
  pose proof (subseteq_take _ _ _ Hin) as Hline.
  apply elem_of_app in Hline as [?|Hline]; [done|].
  apply elem_of_app in Hline as [Hcolon|?]; [|done].
  by apply list_elem_of_singleton in Hcolon.
Qed.

Lemma set_error_formats (state : gearman_state_st)
    (function formatted : list byte) (w : world) :
  S (length function) < GEARMAN_MAX_ERROR_SIZE ->
  gearman_state_set_error state function formatted w =
  Returns (error_recorded function formatted state w).
Proof.
  intros Hn. unfold gearman_state_set_error, error_recorded.
  rewrite store_fresh by lia. cbn [outcome_bind].
  rewrite store_append by (simpl; lia). cbn [outcome_bind].
  destruct (GEARMAN_MAX_ERROR_SIZE - S (length function)) as [|m] eqn:Hm;
    [lia|].
  unfold Buf.vsnprintf.
  replace (S (length function)) with (length (function ++ Buf.text ":"))
    by (rewrite length_app; simpl; lia).
  rewrite store_append; last first.
  { rewrite length_app, length_take. simpl. lia. }
  cbn [outcome_bind].
  pose proof (length_error_line function formatted) as Hlen.
  assert (Hline : (function ++ Buf.text ":") ++ take m formatted =
                  error_line function formatted).
  { unfold error_line. rewrite app_assoc, take_app. 
    rewrite (take_ge (function ++ Buf.text ":"))
      by (rewrite length_app; simpl; lia).
    do 2 f_equal. rewrite length_app. simpl. lia. }
  rewrite app_assoc, Hline.
  destruct (log_fn state) as [f|].
  - do 6 f_equal. rewrite length_app, length_take. simpl length. lia.
  - do 3 f_equal. unfold Buf.memcpy.
    set (size := if decide _ then _ else _).
    assert (Hsize : size + 1 = S (length (error_line function formatted))).
    { subst size. rewrite Hlen, length_app. simpl. case_decide; lia. }
    rewrite Hsize. f_equal.
    rewrite take_app_length'; [done|].
    rewrite length_fmap, length_app. simpl. lia.
Qed.

Lemma set_error_name_fills_buffer (state : gearman_state_st)
    (function formatted : list byte) (w : world) :
  S (length function) = GEARMAN_MAX_ERROR_SIZE ->
  gearman_state_set_error state function formatted w =
  Returns
    match log_fn state with
    | None =>
        (set_last_error
           ((Some <$> (function ++ Buf.text ":")) ++
            drop GEARMAN_MAX_ERROR_SIZE (last_error state)) state, w)
    | Some f =>
        (state,
         add_log_call
           {| log_function := f;
              log_line := Some <$> (function ++ Buf.text ":");
              log_verbose := GEARMAN_VERBOSE_FATAL;
              log_ctx := log_context state |} w)
    end.
Proof.
  intros Hn. unfold gearman_state_set_error.
  rewrite store_fresh by lia. cbn [outcome_bind].
  rewrite store_append by (simpl; lia). cbn [outcome_bind].
  replace (GEARMAN_MAX_ERROR_SIZE - S (length function)) with 0 by lia.
  replace (GEARMAN_MAX_ERROR_SIZE - length function -
           length (Buf.text ":")) with 0 by (simpl; lia).
  cbn [Buf.vsnprintf outcome_bind replicate]. rewrite app_nil_r.
  destruct (log_fn state) as [f|]; [done|].
  do 3 f_equal. unfold Buf.memcpy.
  case_decide; [|lia].
  replace (GEARMAN_MAX_ERROR_SIZE - 1 + 1) with GEARMAN_MAX_ERROR_SIZE by lia.
  f_equal. apply take_ge. rewrite length_fmap, length_app. simpl. lia.
Qed.

Lemma set_error_overflow (state : gearman_state_st)
    (function formatted : list byte) (w : world) :
  GEARMAN_MAX_ERROR_SIZE <= length function ->
  gearman_state_set_error state function formatted w = Undefined.
Proof.
  intros Hn. unfold gearman_state_set_error.
  destruct (decide (length function = GEARMAN_MAX_ERROR_SIZE)) as [Heq|Hne].
  - rewrite store_fresh by lia. cbn [outcome_bind].
    rewrite store_overflow by (simpl; lia). done.
  - change (Buf.fresh GEARMAN_MAX_ERROR_SIZE)
      with ((Some <$> @nil byte) ++ replicate GEARMAN_MAX_ERROR_SIZE None).
    rewrite (store_overflow [] function) by lia. done.
Qed.

(** *** gearman_set_option *)

(** C7: [gearman_set_option] with [GEARMAN_NON_BLOCKING] or
    [GEARMAN_DONT_TRACK_PACKETS] returns [GEARMAN_SUCCESS] and sets exactly
    that flag to the given value (the flag reads [value] afterwards, and
    putting its old value back gives the session as it was); with any
    other option it returns [GEARMAN_INVALID_COMMAND] and the session is
    unchanged. *)
Theorem set_option_sets_one_flag (state : gearman_state_st)
    (option : gearman_options_t) (value : bool) :
  let '(ret, state') := gearman_set_option state option value in
  match option with
  | GEARMAN_NON_BLOCKING =>
      ret = GEARMAN_SUCCESS /\
      non_blocking (options state') = value /\
      set_options
        (set_non_blocking (non_blocking (options state)) (options state'))
        state' = state
  | GEARMAN_DONT_TRACK_PACKETS =>
      ret = GEARMAN_SUCCESS /\
      dont_track_packets (options state') = value /\
      set_options
        (set_dont_track_packets (dont_track_packets (options state))
           (options state'))
        state' = state
  | _ => ret = GEARMAN_INVALID_COMMAND /\ state' = state
  end.
Proof.
  destruct state as [[]], option; cbn; repeat split; reflexivity.
Qed.

(** *** gearman_ready *)

Lemma ready_scan_split (before rest : list gearman_connection_st) :
  Forall (fun con => ready con = false) before ->
  match rest with [] => True | con :: _ => ready con = true end ->
  ready_scan (before ++ rest) =
  match rest with
  | [] => None
  | con :: after =>
      Some (length before, before ++ set_ready false con :: after)
  end.
Proof.
  intros Hbefore Hrest.
  induction Hbefore as [|c before Hc _ IH]; simpl.
  - destruct rest as [|con after]; [done|]. simpl. by rewrite Hrest.
  - rewrite Hc, IH. by destruct rest.
Qed.

(** C8: [gearman_ready] scans the connection list from the head.  When the
    list is [before ++ rest], no connection of [before] is ready, and
    [rest] is empty or starts with a ready connection, then: with [rest]
    empty (no connection is ready) it returns NULL and the session is
    unchanged; otherwise it returns the head of [rest], the first ready
    connection, after clearing its flag, and no other connection and no
    other field of the session is modified. *)
Theorem ready_returns_first_ready (state : gearman_state_st)
    (before rest : list gearman_connection_st) :
  con_list state = before ++ rest ->
  Forall (fun con => ready con = false) before ->
  match rest with [] => True | con :: _ => ready con = true end ->
  gearman_ready state =
  match rest with
  | [] => (None, state)
  | con :: after =>
      (Some (length before),
       set_con_list (before ++ set_ready false con :: after) state)
  end.
Proof.
  intros Hlist Hbefore Hrest. unfold gearman_ready.
  rewrite Hlist, ready_scan_split by done. by destruct rest.
Qed.

(** *** gearman_flush_all *)

Lemma flush_all_loop_split (o : gearman_state_options_t)
    (before rest : list gearman_connection_st) :
  Forall (flush_passes o) before ->
  match rest with [] => True | con :: _ => flush_fails o con end ->
  flush_all_loop o (before ++ rest) =
  match rest with
  | [] => (GEARMAN_SUCCESS, flush_step o <$> before)
  | con :: after =>
      (fst (gearman_connection_flush o con),
       (flush_step o <$> before) ++
       snd (gearman_connection_flush o con) :: after)
  end.
Proof.
  intros Hbefore Hrest.
  induction Hbefore as [|c before Hc _ IH]; simpl.
  - destruct rest as [|con after]; [done|]. simpl.
    destruct Hrest as [Hwrite Hfailed]. unfold waits_for_write in Hwrite.
    case_decide; [done|].
    destruct (gearman_connection_flush o con) as [ret con'].
    simpl in *. by rewrite Hfailed.
  - rewrite IH. unfold flush_step, waits_for_write.
    destruct Hc as [Hwrite|Hok].
    + unfold waits_for_write in Hwrite. rewrite !decide_True by done.
      by destruct rest.
    + case_decide; [by destruct rest|].
      destruct (gearman_connection_flush o c) as [ret c'].
      simpl in *. rewrite Hok. by destruct rest.
Qed.

(** C4: [gearman_flush_all] goes through the connection list in order.
    When the list is [before ++ rest], every connection of [before] is
    either skipped (writable bit set) or flushed with a result that is
    [GEARMAN_SUCCESS] or [GEARMAN_IO_WAIT], and [rest] is empty or starts
    with a connection that is not skipped and whose flush gives another
    result, then: the connections of [before] that have the writable bit
    set are left as they were and the others are flushed; with [rest]
    empty the result is [GEARMAN_SUCCESS]; otherwise the result is the
    flush result of the head of [rest], the first such result, and the
    connections behind it are not touched. *)
Theorem flush_all_first_failure (state : gearman_state_st)
    (before rest : list gearman_connection_st) :
  con_list state = before ++ rest ->
  Forall (flush_passes (options state)) before ->
  match rest with
  | [] => True
  | con :: _ => flush_fails (options state) con
  end ->
  gearman_flush_all state =
  match rest with
  | [] =>
      (GEARMAN_SUCCESS,
       set_con_list (flush_step (options state) <$> before) state)
  | con :: after =>
      (fst (gearman_connection_flush (options state) con),
       set_con_list
         ((flush_step (options state) <$> before) ++
          snd (gearman_connection_flush (options state) con) :: after)
         state)
  end.
Proof.
  intros Hlist Hbefore Hrest. unfold gearman_flush_all.
  rewrite Hlist, flush_all_loop_split by done. by destruct rest.
Qed.

(** [gearman_state_set_error] returns whenever the function name leaves
    room for the colon; it writes nothing but [last_error] or a call of the
    log function, and what it writes starts with the name and the colon. *)
Lemma set_error_returns (state : gearman_state_st)
    (function formatted : list byte) (w : world) :
  length function < GEARMAN_MAX_ERROR_SIZE ->
  exists e w',
    gearman_state_set_error state function formatted w =
    Returns (set_last_error e state, w') /\
    match log_fn state with
    | None =>
        w' = w /\
        take (S (length function)) e = Some <$> (function ++ Buf.text ":")
    | Some f =>
        e = last_error state /\
        exists line,
          w' = add_log_call {| log_function := f; log_line := line;
                               log_verbose := GEARMAN_VERBOSE_FATAL;
                               log_ctx := log_context state |} w /\
          take (S (length function)) line =
          Some <$> (function ++ Buf.text ":")
    end.
Proof.
  intros Hn.
  assert (Heta : set_last_error (last_error state) state = state)
    by (by destruct state).
  assert (Hname : S (length function) = length (function ++ Buf.text ":"))
    by (rewrite length_app; simpl; lia).
  destruct (decide (S (length function) = GEARMAN_MAX_ERROR_SIZE)) as [Heq|Hne].
  - rewrite set_error_name_fills_buffer by done.
    destruct (log_fn state) as [f|].
    + exists (last_error state). eexists. split; [by rewrite Heta|].
      split; [done|]. eexists. split; [done|].
      apply take_ge. rewrite length_fmap. lia.
    + do 2 eexists. split; [done|].
      split; [done|]. rewrite take_app_le by (rewrite length_fmap; lia).
      apply take_ge. rewrite length_fmap. lia.
  - rewrite set_error_formats by lia. unfold error_recorded.
    assert (Hprefix :
      take (S (length function))
        (Some <$> (error_line function formatted ++ [Buf.NUL])) =
      Some <$> (function ++ Buf.text ":")).
    { rewrite <- fmap_take. f_equal.
      pose proof (length_error_line function formatted) as Hlen.
      rewrite take_app_le by lia.
      unfold error_line. rewrite take_take.
      rewrite Nat.min_l by lia.
      rewrite app_assoc, take_app_le by lia.
      apply take_ge. lia. }
    pose proof (length_error_line function formatted) as Hlen.
    destruct (log_fn state) as [f|].
    + exists (last_error state). eexists. split; [by rewrite Heta|].
      split; [done|]. eexists. split; [done|].
      rewrite take_app_le; [done|].
      rewrite length_fmap, length_app. simpl. lia.
    + do 2 eexists. split; [done|]. split; [done|].
      rewrite take_app_le; [done|].
      rewrite length_fmap, length_app. simpl. lia.
Qed.

(** *** gearman_echo *)

Lemma echo_compare_equal (p : gearman_packet_st) (workload : list byte) :
  data p = workload ->
  negb (bool_decide (data_size p = length workload))
  || memcmp_differs workload (data p) (length workload) = false.
Proof.
  intros <-. unfold data_size, memcmp_differs.
  rewrite bool_decide_eq_true_2 by done.
  by rewrite bool_decide_eq_false_2 by (by intros []).
Qed.

Lemma echo_compare_differs (p : gearman_packet_st) (workload : list byte) :
  data_size p <> length workload \/
  take (length workload) (data p) <> workload ->
  negb (bool_decide (data_size p = length workload))
  || memcmp_differs workload (data p) (length workload) = true.
Proof.
  intros [Hsize|Hbytes].
  - by rewrite bool_decide_eq_false_2 by done.
  - apply orb_true_iff. right. unfold memcmp_differs.
    apply bool_decide_eq_true_2. rewrite firstn_all. congruence.
Qed.

Lemma echo_loop_corruption (o : gearman_state_options_t)
    (request : gearman_packet_st) (workload : list byte)
    (before after : list gearman_connection_st)
    (con : gearman_connection_st) :
  Forall (echo_intact o request workload) before ->
  echo_corrupted o request workload con ->
  fst (echo_loop o request workload (before ++ con :: after)) =
  Echo_corruption.
Proof.
  intros Hbefore (answered & Hexchange & Hdiffers).
  unfold echo_exchange in Hexchange.
  induction Hbefore as [|c before (reply & Hc & Hdata) _ IH]; simpl.
  - destruct (gearman_connection_send o con request true) as [ret sent].
    destruct (not_success ret); [done|].
    destruct (gearman_connection_recv o sent true) as [ret' received].
    destruct (not_success ret'); [done|].
    injection Hexchange as ->.
    by rewrite echo_compare_differs.
  - unfold echo_exchange in Hc.
    destruct (gearman_connection_send o c request true) as [ret sent].
    destruct (not_success ret); [done|].
    destruct (gearman_connection_recv o sent true) as [ret' received].
    destruct (not_success ret'); [done|].
    injection Hc as ->.
    rewrite echo_compare_equal by done.
    by destruct (echo_loop o request workload (before ++ con :: after)).
Qed.

(** C1: whatever the codec and the connections answer, that is on every
    exit path of [gearman_echo] (the packet cannot be built, a send fails,
    a receive fails, the data differ, all connections echo), the call
    returns with the session's [non_blocking] option as it was before the
    call.  The premise says that the error buffer has room for the
    function name and its colon, without which reporting a corruption is
    undefined. *)
Theorem echo_restores_non_blocking (state : gearman_state_st)
    (workload : list byte) (w : world) :
  12 < GEARMAN_MAX_ERROR_SIZE ->
  exists ret state' w',
    gearman_echo state workload w = Returns (ret, state', w') /\
    non_blocking (options state') = non_blocking (options state).
Proof.
  intros Hmax. unfold gearman_echo.
  destruct (gearman_packet_create_args _ _ _ _) as [ret request].
  destruct (not_success ret); [by eauto|].
  destruct (echo_loop _ _ _ _) as [[ret'| |] conns].
  - by eauto.
  - edestruct set_error_returns as (e & w' & -> & _); [exact Hmax|].
    cbn. by eauto.
  - by eauto.
Qed.

(** The push and the pop that the exits behind the packet creation go
    through leave the mode as it was, whatever happened to the connections
    in between. *)
Lemma echo_push_pop (state : gearman_state_st)
    (conns : list gearman_connection_st) :
  non_blocking
    (options
       (gearman_state_pop_non_blocking
          (set_con_list conns (gearman_state_push_blocking state)))) =
  non_blocking (options state).
Proof. done. Qed.

(** C5 (as amended): when [gearman_echo] has built its packet, the
    connections in front of [con] echo the workload intact and the
    response on [con] has another size or other bytes, the call returns
    [GEARMAN_ECHO_DATA_CORRUPTION]; if no log function is registered,
    [last_error] then begins with the bytes ["gearman_echo:"]; if one is
    registered, [last_error] is left as it was and the log function is
    called, at [GEARMAN_VERBOSE_FATAL] and with the registered context,
    with a line that begins with these bytes: when the error buffer has
    room for more than the name and the colon, the line is the
    NUL-terminated string ["gearman_echo:corruption during echo"], cut to
    [GEARMAN_MAX_ERROR_SIZE - 1] bytes if it is longer. *)
Theorem echo_corruption_reported (state : gearman_state_st)
    (workload : list byte) (w : world) (request : gearman_packet_st)
    (before after : list gearman_connection_st)
    (con : gearman_connection_st) :
  gearman_packet_create_args state GEARMAN_MAGIC_REQUEST
    GEARMAN_COMMAND_ECHO_REQ [workload] = (GEARMAN_SUCCESS, request) ->
  con_list state = before ++ con :: after ->
  Forall (echo_intact (echo_options state) request workload) before ->
  echo_corrupted (echo_options state) request workload con ->
  12 < GEARMAN_MAX_ERROR_SIZE ->
  exists state' w',
    gearman_echo state workload w =
    Returns (GEARMAN_ECHO_DATA_CORRUPTION, state', w') /\
    match log_fn state with
    | None =>
        take 13 (last_error state') = Some <$> Buf.text "gearman_echo:" /\
        w' = w
    | Some f =>
        last_error state' = last_error state /\
        exists line,
          w' = add_log_call {| log_function := f; log_line := line;
                               log_verbose := GEARMAN_VERBOSE_FATAL;
                               log_ctx := log_context state |} w /\
          take 13 line = Some <$> Buf.text "gearman_echo:" /\
          (13 < GEARMAN_MAX_ERROR_SIZE ->
           length line = GEARMAN_MAX_ERROR_SIZE /\
           Buf.c_str line =
             Some (take (GEARMAN_MAX_ERROR_SIZE - 1)
                     (Buf.text "gearman_echo:corruption during echo")))
    end.
Proof.
  intros Hcreate Hlist Hbefore Hcon Hmax. unfold gearman_echo.
  rewrite Hcreate. change (not_success GEARMAN_SUCCESS) with false.
  cbv iota.
  pose proof (echo_loop_corruption _ _ _ _ after _ Hbefore Hcon) as Hloop.
  unfold echo_options in Hloop.
  change (con_list (gearman_state_push_blocking state))
    with (con_list state).
  rewrite Hlist.
  destruct (echo_loop _ _ _ _) as [exit conns]. simpl in Hloop. subst exit.
  set (popped := gearman_state_pop_non_blocking _).
  destruct (set_error_returns popped (Buf.text "gearman_echo")
              (Buf.text "corruption during echo") w Hmax)
    as (e & w' & Hset & Hrecorded).
  rewrite Hset. cbn [outcome_bind]. do 2 eexists. split; [done|].
  change (log_fn popped) with (log_fn state) in Hrecorded.
  change (log_context popped) with (log_context state) in Hrecorded.
  change (last_error popped) with (last_error state) in Hrecorded.
  destruct (log_fn state) as [f|] eqn:Hsink.
  - destruct Hrecorded as (-> & line & -> & Hline). split; [done|].
    exists line. split; [done|]. split; [done|]. intros Hroom.
    rewrite set_error_formats in Hset by (simpl; lia).
    unfold error_recorded in Hset.
    change (log_fn popped) with (log_fn state) in Hset.
    rewrite Hsink in Hset. injection Hset as _ Hcalls.
    apply app_inv_head in Hcalls. injection Hcalls as Hl.
    pose proof (length_error_line (Buf.text "gearman_echo")
                  (Buf.text "corruption during echo")) as Hlen.
    assert (Hnul : Buf.NUL ∉ error_line (Buf.text "gearman_echo")
                               (Buf.text "corruption during echo")).
    { apply error_line_nul_free; apply (bool_decide_unpack _);
        vm_compute; reflexivity. }
    rewrite <- Hl. split.
    + rewrite length_app, length_fmap, length_app, length_replicate.
      simpl. lia.
    + by rewrite c_str_text.
  - by destruct Hrecorded as (-> & He).
Qed.

(** *** gearman_wait *)

Lemma set_pfds_same (state : gearman_state_st) :
  set_pfds (pfds state) state = state.
Proof. by destruct state. Qed.

Lemma wait_fill_idle (conns : list gearman_connection_st)
    (entries : list (option pollfd)) (x : nat) :
  Forall (fun con => events con = 0%Z) conns ->
  wait_fill conns entries x = Returns (x, entries).
Proof.
  induction 1 as [|con conns Hcon _ IH]; simpl; [done|].
  by rewrite decide_True.
Qed.

Lemma wait_fill_fits (conns : list gearman_connection_st)
    (entries : list (option pollfd)) (x : nat) :
  x + polled_entries conns <= length entries ->
  exists entries',
    wait_fill conns entries x = Returns (x + polled_entries conns, entries')
    /\ length entries' = length entries.
Proof.
  unfold polled_entries.
  revert entries x. induction conns as [|con conns IH]; intros entries x.
  - simpl. rewrite Nat.add_0_r. by eauto.
  - rewrite filter_cons. simpl. case_decide as Hevents.
    + rewrite decide_False by done. simpl. intros Hfit.
      rewrite decide_True by lia.
      destruct (IH (<[x := Some {| pfd_fd := fd con; pfd_events := events con;
                                    pfd_revents := 0 |}]> entries) (S x))
        as (entries' & -> & Hlen).
      { rewrite length_insert. lia. }
      exists entries'. rewrite length_insert in Hlen.
      split; [|done]. do 2 f_equal. lia.
    + rewrite decide_True by (by destruct (decide (events con = 0%Z))).
      by apply IH.
Qed.

Lemma wait_ready_capacity (state : gearman_state_st) :
  con_count state <= pfds_size (wait_ready state).
Proof.
  unfold wait_ready, wait_grown, pfds_size. case_decide; simpl; [|lia].
  unfold pfds_size in *. rewrite length_app, length_replicate. lia.
Qed.

Lemma polled_entries_le (conns : list gearman_connection_st) :
  polled_entries conns <= length conns.
Proof. apply length_filter. Qed.

(** With the polling array large enough and at least one entry to poll,
    [gearman_wait] is its poll loop and what follows it. *)
Lemma wait_reaches_poll (state : gearman_state_st) (w : world) :
  (pfds_size state < con_count state -> heap_exhausted w = false) ->
  con_count state = length (con_list state) ->
  0 < polled_entries (con_list state) ->
  exists entries,
    gearman_wait state w =
    wait_polled (set_pfds entries (wait_ready state))
      (polled_entries (con_list state)) w.
Proof.
  intros Hheap Hcount Hactive.
  pose proof (wait_ready_capacity state) as Hcap.
  pose proof (polled_entries_le (con_list state)) as Hle.
  destruct (wait_fill_fits (con_list state) (pfds (wait_ready state)) 0)
    as (entries & Hfill & _).
  { unfold pfds_size in Hcap. simpl. lia. }
  exists entries. unfold gearman_wait, wait_ready in *.
  case_decide as Hgrow.
  - rewrite Hheap by done. change (con_list (wait_grown state))
      with (con_list state).
    rewrite Hfill. cbn [outcome_bind]. simpl. by rewrite decide_False by lia.
  - rewrite Hfill. cbn [outcome_bind]. simpl. by rewrite decide_False by lia.
Qed.

Lemma wait_poll_interrupted (state : gearman_state_st) (x : nat)
    (interrupted rest : list poll_answer) (w : world) :
  Forall is_interrupted interrupted ->
  poll_answers w = interrupted ++ rest ->
  exists w1,
    wait_poll state x (interrupted ++ rest) w = wait_poll state x rest w1 /\
    poll_answers w1 = rest /\
    heap_exhausted w1 = heap_exhausted w /\
    log_calls w1 = log_calls w.
Proof.
  intros Hall. revert w.
  induction Hall as [|a interrupted [Hret Herrno] _ IH]; intros w Hw.
  - by exists w.
  - cbn [app wait_poll]. unfold poll.
    rewrite (decide_True (P := poll_ret a = (-1)%Z)) by done.
    rewrite (decide_True (P := (-1)%Z = (-1)%Z)) by done.
    rewrite decide_True by done.
    rewrite set_pfds_same.
    destruct (IH (set_errno (poll_errno a)
                    (set_poll_answers (interrupted ++ rest) w)))
      as (w1 & -> & ? & ? & ?); [done|].
    by exists w1.
Qed.

Lemma wait_polled_interrupted (state : gearman_state_st) (x : nat)
    (interrupted rest : list poll_answer) (w : world) :
  Forall is_interrupted interrupted ->
  poll_answers w = interrupted ++ rest ->
  exists w1,
    wait_polled state x w = wait_polled state x w1 /\
    poll_answers w1 = rest /\
    heap_exhausted w1 = heap_exhausted w /\
    log_calls w1 = log_calls w.
Proof.
  intros Hall Hw.
  destruct (wait_poll_interrupted state x _ _ w Hall Hw)
    as (w1 & Hpoll & Hrest & ? & ?).
  exists w1. unfold wait_polled. by rewrite Hw, Hpoll, Hrest.
Qed.

Lemma wait_polled_errno (state : gearman_state_st) (x : nat) (w : world)
    (a : poll_answer) (rest : list poll_answer) :
  poll_answers w = a :: rest ->
  poll_ret a = (-1)%Z ->
  poll_errno a <> EINTR ->
  13 < GEARMAN_MAX_ERROR_SIZE ->
  wait_polled state x w =
  let '(state', w') :=
    error_recorded (Buf.text "gearman_wait")
      (Buf.text "poll:" ++ Buf.decimal (poll_errno a)) state
      (set_errno (poll_errno a) (set_poll_answers rest w)) in
  Returns (GEARMAN_ERRNO, set_last_errno (errno w') state', w').
Proof.
  intros Hw Hret Herrno Hmax. unfold wait_polled.
  rewrite Hw. cbn [wait_poll]. unfold poll.
  rewrite (decide_True (P := poll_ret a = (-1)%Z)) by done.
  rewrite (decide_True (P := (-1)%Z = (-1)%Z)) by done.
  rewrite decide_False by done.
  rewrite set_pfds_same.
  rewrite set_error_formats by (simpl; lia).
  unfold error_recorded. by destruct (log_fn state).
Qed.

Lemma wait_polled_timeout (state : gearman_state_st) (x : nat) (w : world)
    (a : poll_answer) (rest : list poll_answer) :
  poll_answers w = a :: rest ->
  poll_ret a = 0%Z ->
  13 < GEARMAN_MAX_ERROR_SIZE ->
  exists entries,
    wait_polled state x w =
    let '(state', w') :=
      error_recorded (Buf.text "gearman_wait") (Buf.text "timeout reached")
        (set_pfds entries state) (set_poll_answers rest w) in
    Returns (GEARMAN_TIMEOUT, state', w').
Proof.
  intros Hw Hret Hmax. unfold wait_polled.
  rewrite Hw. cbn [wait_poll]. unfold poll.
  rewrite (decide_False (P := poll_ret a = (-1)%Z)) by lia.
  rewrite (decide_False (P := poll_ret a = (-1)%Z)) by lia.
  cbn [outcome_bind]. rewrite decide_True by done.
  rewrite set_error_formats by (simpl; lia).
  eexists. reflexivity.
Qed.


Lemma wait_no_active (state : gearman_state_st) (w : world) :
  Forall (fun con => events con = 0%Z) (con_list state) ->
  (pfds_size state < con_count state -> heap_exhausted w = false) ->
  13 < GEARMAN_MAX_ERROR_SIZE ->
  gearman_wait state w =
  let '(state', w') :=
    error_recorded (Buf.text "gearman_wait")
      (Buf.text "no active file descriptors") (wait_ready state) w in
  Returns (GEARMAN_NO_ACTIVE_FDS, state', w').
Proof.
  intros Hidle Hheap Hmax. unfold gearman_wait, wait_ready.
  case_decide as Hgrow.
  - rewrite Hheap by done.
    rewrite wait_fill_idle by done. cbn [outcome_bind].
    rewrite decide_True by done. rewrite set_pfds_same.
    rewrite set_error_formats by (simpl; lia).
    by destruct (error_recorded _ _ _ _).
  - rewrite wait_fill_idle by done. cbn [outcome_bind].
    rewrite decide_True by done. rewrite set_pfds_same.
    rewrite set_error_formats by (simpl; lia).
    by destruct (error_recorded _ _ _ _).
Qed.

Lemma error_recorded_world (function formatted : list byte)
    (state : gearman_state_st) (w : world) :
  poll_answers (snd (error_recorded function formatted state w)) =
  poll_answers w /\
  heap_exhausted (snd (error_recorded function formatted state w)) =
  heap_exhausted w.
Proof. unfold error_recorded. by destruct (log_fn state). Qed.

Lemma error_recorded_reports (function formatted : list byte)
    (state : gearman_state_st) (w : world) :
  log_fn state = None ->
  reports function formatted (fst (error_recorded function formatted state w))
  /\ snd (error_recorded function formatted state w) = w.
Proof.
  intros Hsink. unfold error_recorded, reports. rewrite Hsink. simpl.
  split; [by eexists|done].
Qed.

Lemma wait_ready_log (state : gearman_state_st) :
  log_fn (wait_ready state) = log_fn state /\
  log_context (wait_ready state) = log_context state.
Proof. unfold wait_ready. by case_decide. Qed.

Lemma error_recorded_call (function formatted : list byte)
    (state : gearman_state_st) (w : world) (f : nat) :
  log_fn state = Some f ->
  S (length function) < GEARMAN_MAX_ERROR_SIZE ->
  exists c,
    report_call function formatted state c /\
    error_recorded function formatted state w = (state, add_log_call c w).
Proof.
  intros Hsink Hroom. unfold error_recorded. rewrite Hsink.
  eexists. split; [|reflexivity].
  repeat split; cbn; [done|by eexists|].
  rewrite length_app, length_fmap, length_app, length_replicate.
  pose proof (length_error_line function formatted) as Hlen.
  cbn. lia.
Qed.

(** C2 (the case the code misses): in [gearman_wait], once the
    polled-entry count is positive (the polling array could be had,
    [con_count] is the length of the connection list, and some connection
    wants events), and with an error buffer that has room for the report
    of a failure, let the world answer the calls of [poll] with any
    number of results -1 with [errno] [EINTR] and then with [rest].  Each
    of the interrupted calls is retried and none surfaces: with [rest]
    empty the call is still polling; otherwise the first answer of [rest]
    decides: a result 0 makes the call return [GEARMAN_TIMEOUT], and a
    result -1 with another [errno] makes it return [GEARMAN_ERRNO].
    [last_errno] is then the [errno] that is read after the failure has
    been reported: with no log function registered that is the [errno] of
    [poll]; with one registered it is the [errno] that the log function,
    called with the report, leaves behind, which need not be the one of
    [poll]. *)
Theorem wait_poll_results (state : gearman_state_st) (w : world)
    (interrupted rest : list poll_answer) :
  (pfds_size state < con_count state -> heap_exhausted w = false) ->
  con_count state = length (con_list state) ->
  0 < polled_entries (con_list state) ->
  13 < GEARMAN_MAX_ERROR_SIZE ->
  poll_answers w = interrupted ++ rest ->
  Forall is_interrupted interrupted ->
  match rest with
  | [] => gearman_wait state w = Waiting
  | a :: _ =>
      (poll_ret a = (-1)%Z -> poll_errno a <> EINTR ->
       exists state' w',
         gearman_wait state w = Returns (GEARMAN_ERRNO, state', w') /\
         last_errno state' = errno w' /\
         match log_fn state with
         | None => errno w' = poll_errno a
         | Some _ =>
             exists c,
               report_call (Buf.text "gearman_wait")
                 (Buf.text "poll:" ++ Buf.decimal (poll_errno a)) state c /\
               errno w' = gearman_log_fn c (poll_errno a)
         end) /\
      (poll_ret a = 0%Z ->
       exists state' w',
         gearman_wait state w = Returns (GEARMAN_TIMEOUT, state', w'))
  end.
Proof.
  intros Hheap Hcount Hactive Hmax Hw Hall.
  destruct (wait_reaches_poll state w Hheap Hcount Hactive)
    as (entries & ->).
  destruct (wait_polled_interrupted (set_pfds entries (wait_ready state))
              (polled_entries (con_list state)) _ _ w Hall Hw)
    as (w1 & -> & Hw1 & _ & _).
  destruct rest as [|a rest].
  - unfold wait_polled. by rewrite Hw1.
  - split.
    + intros Hret Herrno.
      rewrite (wait_polled_errno _ _ _ a rest) by done.
      destruct (wait_ready_log state) as [Hfn Hcontext].
      destruct (log_fn state) as [f|] eqn:Hsink.
      * destruct (error_recorded_call (Buf.text "gearman_wait")
                    (Buf.text "poll:" ++ Buf.decimal (poll_errno a))
                    (set_pfds entries (wait_ready state))
                    (set_errno (poll_errno a) (set_poll_answers rest w1)) f)
          as (c & Hcall & ->); [done|simpl; lia|].
        do 2 eexists. split; [reflexivity|]. split; [done|].
        exists c. split; [|done].
        destruct Hcall as (Hf & ? & ? & ? & Hc). simpl in Hf, Hc.
        repeat split; [congruence|done..|congruence].
      * destruct (error_recorded_reports (Buf.text "gearman_wait")
                    (Buf.text "poll:" ++ Buf.decimal (poll_errno a))
                    (set_pfds entries (wait_ready state))
                    (set_errno (poll_errno a) (set_poll_answers rest w1)))
          as [_ Hworld]; [done|].
        destruct (error_recorded _ _ _ _) as [state' w'].
        simpl in Hworld. subst w'.
        by do 2 eexists.
    + intros Hret.
      destruct (wait_polled_timeout (set_pfds entries (wait_ready state))
                  (polled_entries (con_list state)) w1 a rest)
        as (entries' & ->); [done..|].
      destruct (error_recorded _ _ _ _) as [state' w'].
      by exists state', w'.
Qed.

(** C3 (as amended): when every connection of the session has an empty
    desired-events mask, which includes a session without connections,
    the polling array is large enough or can be grown, and the error buffer
    has room for the report,
    [gearman_wait] returns [GEARMAN_NO_ACTIVE_FDS] and no call of [poll]
    is made: the answers the world holds are all still to come. *)
Theorem wait_no_active_fds (state : gearman_state_st) (w : world) :
  Forall (fun con => events con = 0%Z) (con_list state) ->
  (pfds_size state < con_count state -> heap_exhausted w = false) ->
  13 < GEARMAN_MAX_ERROR_SIZE ->
  exists state' w',
    gearman_wait state w = Returns (GEARMAN_NO_ACTIVE_FDS, state', w') /\
    poll_answers w' = poll_answers w.
Proof.
  intros Hidle Hheap Hmax. rewrite wait_no_active by done.
  pose proof (error_recorded_world (Buf.text "gearman_wait")
                (Buf.text "no active file descriptors")
                (wait_ready state) w) as [Hanswers _].
  destruct (error_recorded _ _ _ _) as [state' w'].
  by exists state', w'.
Qed.

(** *** Error recording *)

(** C9 (the case the code misses): a function name that fills the error
    buffer up to its last char is copied with the colon into that last
    char; [vsnprintf] is left no room, not even for a terminator, and
    without a log function the whole buffer is copied into [last_error],
    which then holds no NUL. *)
Theorem set_error_leaves_no_terminator (state : gearman_state_st)
    (function formatted : list byte) (w : world) :
  log_fn state = None ->
  S (length function) = GEARMAN_MAX_ERROR_SIZE ->
  length (last_error state) <= GEARMAN_MAX_ERROR_SIZE ->
  Buf.NUL ∉ function ->
  exists state',
    gearman_state_set_error state function formatted w =
    Returns (state', w) /\
    last_error state' = Some <$> (function ++ Buf.text ":") /\
    ~ Buf.nul_terminated (last_error state').
Proof.
  intros Hsink Hfull Hlen Hnul.
  rewrite set_error_name_fills_buffer by done. rewrite Hsink.
  eexists. split; [done|]. simpl.
  rewrite drop_ge, app_nil_r by done. split; [done|].
  unfold Buf.nul_terminated. rewrite c_str_unterminated.
  - by intros [? ?].
  - intros [Hin|Hin]%elem_of_app; [done|].
    by apply list_elem_of_singleton in Hin.
Qed.

(** *** gearman_state_create and gearman_state_clone *)

Lemma clone_connections_frame (conns : list gearman_connection_st)
    (destination cloned : gearman_state_st) :
  clone_keeps_session ->
  clone_connections conns destination = Some cloned ->
  options cloned = options destination /\
  timeout cloned = timeout destination /\
  packet_list cloned = packet_list destination /\
  packet_count cloned = packet_count destination.
Proof.
  intros Hkeeps. revert destination.
  induction conns as [|con conns IH]; intros destination; simpl.
  - by intros [= ->].
  - destruct (gearman_connection_clone destination con) as [next|] eqn:Hnext;
      [|done].
    intros Hrest. destruct (Hkeeps _ _ _ Hnext) as (<- & <- & <- & <-).
    by apply IH.
Qed.

Lemma clone_out_of_memory (source : option gearman_state_st) (w : world) :
  heap_exhausted w = true ->
  gearman_state_clone None source w = Returns (None, w).
Proof.
  intros Hheap. unfold gearman_state_clone, gearman_state_create.
  rewrite Hheap. by destruct source.
Qed.

Lemma clone_connections_copies (conns : list gearman_connection_st)
    (destination : gearman_state_st) :
  clone_links_copy ->
  Forall clonable conns ->
  exists cloned,
    clone_connections conns destination = Some cloned /\
    server <$> con_list cloned =
      reverse (server <$> conns) ++ (server <$> con_list destination) /\
    con_count cloned = length conns + con_count destination.
Proof.
  intros Hlinks Hall. revert destination.
  induction Hall as [|con conns Hcon _ IH]; intros destination.
  - by exists destination.
  - cbn [clone_connections].
    destruct (Hcon destination) as [next Hnext]. rewrite Hnext.
    destruct (Hlinks _ _ _ Hnext) as (Hcount & copy & Hlist & Hserver).
    destruct (IH next) as (cloned & -> & Hservers & Hcounted).
    exists cloned. split; [done|].
    rewrite Hservers, Hcounted, Hlist, Hcount, fmap_cons, Hserver.
    rewrite fmap_cons, reverse_cons, <- app_assoc. simpl. split; [done|lia].
Qed.

Lemma clone_connections_fails (conns : list gearman_connection_st)
    (destination : gearman_state_st) :
  Exists unclonable conns ->
  clone_connections conns destination = None.
Proof.
  intros Hsome. revert destination.
  induction Hsome as [con conns Hcon|con conns _ IH]; intros destination;
    cbn [clone_connections].
  - by rewrite Hcon.
  - by destruct (gearman_connection_clone destination con).
Qed.

(** C10 (as amended): let the destination be another object than the
    source, and let the error buffer of a destination the caller supplies
    have a first char, as every error buffer has.  [gearman_connection_clone]
    is taken to link a connection for the same server at the head of the
    destination's list, to count it, and to leave the options, the timeout
    and the packets of the destination alone.
    When the destination has to be allocated and cannot be,
    [gearman_state_clone] returns NULL.  Otherwise:
    with a source of which every connection can be cloned, it returns a
    session that has the [non_blocking] and [dont_track_packets] flags and
    the [timeout] of the source, whose connection list is a clone of the
    source's (as many connections, and for the same servers; each clone
    having been linked at the head, they come in reverse order), and whose
    packet list is empty and [packet_count] zero, whatever packets the
    source has; with a source of which some connection cannot be cloned it
    returns NULL;
    with a NULL source it returns a session with the defaults of
    [gearman_state_create]: flags off, [timeout] -1, no connections, no
    packets, every hook and context NULL, an empty error message. *)
Theorem clone_copies_options_and_connections
    (destination source : option gearman_state_st) (w : world) :
  (forall old, destination = Some old -> 0 < length (last_error old)) ->
  0 < GEARMAN_MAX_ERROR_SIZE ->
  clone_keeps_session ->
  clone_links_copy ->
  (destination = None -> heap_exhausted w = true ->
   gearman_state_clone destination source w = Returns (None, w)) /\
  ((destination = None -> heap_exhausted w = false) ->
   match source with
   | Some source =>
       (Forall clonable (con_list source) ->
        exists d,
          gearman_state_clone destination (Some source) w =
          Returns (Some d, w) /\
          non_blocking (options d) = non_blocking (options source) /\
          dont_track_packets (options d) =
            dont_track_packets (options source) /\
          timeout d = timeout source /\
          server <$> con_list d = reverse (server <$> con_list source) /\
          con_count d = length (con_list source) /\
          packet_list d = [] /\
          packet_count d = 0) /\
       (Exists unclonable (con_list source) ->
        gearman_state_clone destination (Some source) w = Returns (None, w))
   | None =>
       exists d,
         gearman_state_clone destination None w = Returns (Some d, w) /\
         non_blocking (options d) = false /\
         dont_track_packets (options d) = false /\
         stored_non_blocking (options d) = false /\
         timeout d = (-1)%Z /\
         con_list d = [] /\ con_count d = 0 /\
         packet_list d = [] /\ packet_count d = 0 /\
         pfds d = [] /\ sending d = 0 /\ last_errno d = 0%Z /\
         verbose d = 0%Z /\
         log_fn d = None /\ log_context d = None /\
         event_watch_fn d = None /\ event_watch_context d = None /\
         workload_malloc_fn d = None /\ workload_malloc_context d = None /\
         workload_free_fn d = None /\ workload_free_context d = None /\
         Buf.c_str (last_error d) = Some []
   end).
Proof.
  intros Hbuffer Hmax Hkeeps Hlinks. split.
  { intros -> Hheap. by apply clone_out_of_memory. }
  intros Hheap.
  assert (Hstore : exists is_allocated error_buffer cells,
    match destination with
    | None =>
        if heap_exhausted w then None
        else Some (true, Buf.fresh GEARMAN_MAX_ERROR_SIZE)
    | Some old => Some (false, last_error old)
    end = Some (is_allocated, error_buffer) /\
    Buf.store error_buffer 0 [Buf.NUL] = Returns (Some Buf.NUL :: cells)).
  { destruct destination as [old|].
    - specialize (Hbuffer old eq_refl).
      destruct (last_error old) as [|c cells] eqn:Hold; [simpl in *; lia|].
      exists false, (c :: cells), cells. split; [done|].
      unfold Buf.store.
      destruct (decide _) as [_|Hn]; [done|simpl in Hn; lia].
    - rewrite Hheap by done.
      destruct GEARMAN_MAX_ERROR_SIZE as [|n]; [lia|].
      exists true, (Buf.fresh (S n)), (Buf.fresh n). split; [done|].
      unfold Buf.store.
      destruct (decide _) as [_|Hn]; [done|simpl in Hn; lia]. }
  destruct Hstore as (is_allocated & error_buffer & cells & Hmemory & Hstore).
  unfold gearman_state_clone, gearman_state_create.
  rewrite Hmemory. cbn [outcome_bind]. rewrite Hstore. cbn [outcome_bind].
  destruct source as [source|].
  - split.
    + intros Hall.
      match goal with
      | |- context [clone_connections _ ?base] =>
          destruct (clone_connections_copies (con_list source) base
                      Hlinks Hall)
            as (d & Hcloned & Hservers & Hcount)
      end.
      rewrite Hcloned. exists d. split; [done|].
      destruct (clone_connections_frame _ _ _ Hkeeps Hcloned)
        as (-> & -> & -> & ->).
      rewrite Hservers, Hcount. cbn. rewrite app_nil_r.
      repeat split; done.
    + intros Hsome. by rewrite clone_connections_fails.
  - eexists. split; [done|]. by repeat split.
Qed.

(** Every connection list splits the way the theorems on [gearman_ready]
    and [gearman_flush_all] ask for. *)
Lemma ready_split_exists (conns : list gearman_connection_st) :
  exists before rest,
    conns = before ++ rest /\
    Forall (fun con => ready con = false) before /\
    match rest with [] => True | con :: _ => ready con = true end.
Proof.
  induction conns as [|con conns (before & rest & -> & Hbefore & Hrest)].
  - by exists [], [].
  - destruct (ready con) eqn:Hready.
    + by exists [], (con :: before ++ rest).
    + exists (con :: before), rest. by repeat split; [constructor|].
Qed.

Lemma flush_split_exists (o : gearman_state_options_t)
    (conns : list gearman_connection_st) :
  exists before rest,
    conns = before ++ rest /\
    Forall (flush_passes o) before /\
    match rest with [] => True | con :: _ => flush_fails o con end.
Proof.
  induction conns as [|con conns (before & rest & -> & Hbefore & Hrest)].
  - by exists [], [].
  - destruct (decide (waits_for_write con)) as [Hwrite|Hwrite].
    + exists (con :: before), rest.
      repeat split; [constructor; [by left|done]|done].
    + destruct (gearman_failed (fst (gearman_connection_flush o con)))
        eqn:Hfailed.
      * by exists [], (con :: before ++ rest).
      * exists (con :: before), rest.
        repeat split; [constructor; [by right|done]|done].
Qed.

End Properties.

(** ** The properties on the loopback instance *)

Lemma echo_restores_non_blocking_witness :
  12 < 1024 /\
  exists ret state' w',
    gearman_echo (X := Sample.loopback)
      (Sample.session
         [Sample.connection 4730 0 false; Sample.connection 4731 0 false]
         true None)
      Sample.hello (Sample.calm []) = Returns (ret, state', w') /\
    non_blocking (options state') = true.
Proof.
  split; [lia|].
  apply (echo_restores_non_blocking (X := Sample.loopback)). simpl. lia.
Defined.

Lemma wait_poll_results_witness :
  exists state' w',
    gearman_wait (X := Sample.loopback)
      (Sample.session [Sample.connection 4730 1 false] false (Some 8))
      (Sample.calm
         [Sample.interrupted; Sample.interrupted;
          {| poll_ret := -1; poll_errno := 22; poll_revents := [] |}]) =
    Returns (GEARMAN_ERRNO, state', w') /\
    last_errno state' = 9%Z.
Proof.
  destruct (wait_poll_results (X := Sample.loopback)
              (Sample.session [Sample.connection 4730 1 false] false (Some 8))
              (Sample.calm
                 [Sample.interrupted; Sample.interrupted;
                  {| poll_ret := -1; poll_errno := 22; poll_revents := [] |}])
              [Sample.interrupted; Sample.interrupted]
              [{| poll_ret := -1; poll_errno := 22; poll_revents := [] |}])
    as [Herrno _].
  - intros _. reflexivity.
  - reflexivity.
  - vm_compute. lia.
  - simpl. lia.
  - reflexivity.
  - repeat constructor.
  - destruct Herrno as (state' & w' & Hwait & Hlast & c & Hcall & Hleft);
      [reflexivity|simpl; lia|].
    exists state', w'. split; [exact Hwait|].
    destruct Hcall as (Hf & _). simpl in Hf, Hleft.
    unfold Sample.log_fn_errno in Hleft.
    injection Hf as Hf. rewrite <- Hf in Hleft. rewrite Hlast. exact Hleft.
Defined.

Lemma wait_no_active_fds_witness :
  exists state' w',
    gearman_wait (X := Sample.loopback)
      (Sample.session [Sample.connection 4730 0 false] false None)
      (Sample.calm [Sample.interrupted]) =
    Returns (GEARMAN_NO_ACTIVE_FDS, state', w') /\
    poll_answers w' = [Sample.interrupted].
Proof.
  apply (wait_no_active_fds (X := Sample.loopback)).
  - repeat constructor.
  - intros _. reflexivity.
  - simpl. lia.
Defined.

Lemma wait_allocation_failure_first :
  Forall (fun con => events con = 0%Z)
    (con_list (Sample.session [Sample.connection 4730 0 false] false None)) /\
  exists state' w',
    gearman_wait (X := Sample.loopback)
      (Sample.session [Sample.connection 4730 0 false] false None)
      Sample.out_of_memory =
    Returns (GEARMAN_MEMORY_ALLOCATION_FAILURE, state', w').
Proof.
  split; [repeat constructor|]. vm_compute. by eauto.
Qed.

Lemma flush_all_first_failure_witness :
  gearman_flush_all (X := Sample.loopback)
    (Sample.session
       [Sample.connection 4730 4 false; Sample.connection 4730 1 false;
        Sample.connection 4733 1 false; Sample.connection 4730 1 false]
       false None) =
  (GEARMAN_COULD_NOT_CONNECT,
   Sample.session
     [Sample.connection 4730 4 false; Sample.connection 4730 1 false;
      Sample.connection 4733 1 false; Sample.connection 4730 1 false]
     false None).
Proof.
  apply (flush_all_first_failure (X := Sample.loopback)
           (Sample.session
              [Sample.connection 4730 4 false; Sample.connection 4730 1 false;
               Sample.connection 4733 1 false; Sample.connection 4730 1 false]
              false None)
           [Sample.connection 4730 4 false; Sample.connection 4730 1 false]
           [Sample.connection 4733 1 false; Sample.connection 4730 1 false]).
  - reflexivity.
  - constructor; [left; vm_compute; discriminate|].
    constructor; [right; reflexivity|]. constructor.
  - split; [|reflexivity]. vm_compute. by intros Hwrite; apply Hwrite.
Defined.

Lemma ready_returns_first_ready_witness :
  gearman_ready
    (Sample.session
       [Sample.connection 4730 1 false; Sample.connection 4731 1 true;
        Sample.connection 4732 1 true]
       false None) =
  (Some 1,
   Sample.session
     [Sample.connection 4730 1 false; Sample.connection 4731 1 false;
      Sample.connection 4732 1 true]
     false None).
Proof.
  apply (ready_returns_first_ready
           (Sample.session
              [Sample.connection 4730 1 false; Sample.connection 4731 1 true;
               Sample.connection 4732 1 true]
              false None)
           [Sample.connection 4730 1 false]
           [Sample.connection 4731 1 true; Sample.connection 4732 1 true]).
  - reflexivity.
  - repeat constructor.
  - reflexivity.
Defined.

Lemma echo_corruption_reported_witness :
  exists state' w',
    gearman_echo (X := Sample.loopback)
      (Sample.session
         [Sample.connection 4730 0 false; Sample.connection 4731 0 false]
         true None)
      Sample.hello (Sample.calm []) =
    Returns (GEARMAN_ECHO_DATA_CORRUPTION, state', w') /\
    take 13 (last_error state') = Some <$> Buf.text "gearman_echo:" /\
    w' = Sample.calm [].
Proof.
  apply (echo_corruption_reported (X := Sample.loopback)
           (Sample.session
              [Sample.connection 4730 0 false; Sample.connection 4731 0 false]
              true None)
           Sample.hello (Sample.calm [])
           {| magic := GEARMAN_MAGIC_REQUEST;
              command := GEARMAN_COMMAND_ECHO_REQ; args := [];
              data := Sample.hello |}
           [Sample.connection 4730 0 false] []
           (Sample.connection 4731 0 false)).
  - reflexivity.
  - reflexivity.
  - constructor; [|constructor]. eexists. split; reflexivity.
  - eexists. split; [reflexivity|]. right. vm_compute. discriminate.
  - simpl. lia.
Defined.

Lemma echo_corruption_with_log_function :
  echo_corrupted (X := Sample.loopback)
    (echo_options (Sample.session [Sample.connection 4731 0 false] false (Some 7)))
    {| magic := GEARMAN_MAGIC_REQUEST; command := GEARMAN_COMMAND_ECHO_REQ;
       args := []; data := Sample.hello |}
    Sample.hello (Sample.connection 4731 0 false) /\
  exists state' w',
    gearman_echo (X := Sample.loopback)
      (Sample.session [Sample.connection 4731 0 false] false (Some 7))
      Sample.hello (Sample.calm []) =
    Returns (GEARMAN_ECHO_DATA_CORRUPTION, state', w') /\
    Buf.c_str (last_error state') = Some [] /\
    take 13 (last_error state') <> Some <$> Buf.text "gearman_echo:".
Proof.
  split.
  - eexists. split; [reflexivity|]. right. vm_compute. discriminate.
  - do 2 eexists. split; [vm_compute; reflexivity|].
    split; [reflexivity|]. vm_compute. discriminate.
Qed.


Lemma set_error_leaves_no_terminator_witness :
  exists state',
    gearman_state_set_error (X := Sample.loopback)
      (Sample.session [] false None) (replicate 1023 x66)
      (Buf.text "message") (Sample.calm []) =
    Returns (state', Sample.calm []) /\
    last_error state' = Some <$> (replicate 1023 x66 ++ Buf.text ":") /\
    ~ Buf.nul_terminated (last_error state').
Proof.
  apply (set_error_leaves_no_terminator (X := Sample.loopback)).
  - reflexivity.
  - reflexivity.
  - apply Nat.leb_le. vm_compute. reflexivity.
  - intros [Hnul _]%elem_of_replicate. discriminate.
Defined.

Lemma clone_copies_options_and_connections_witness :
  exists d,
    gearman_state_clone (X := Sample.loopback) None
      (Some (Sample.session
               [Sample.connection 4730 1 true; Sample.connection 4731 0 false]
               true (Some 7)))
      (Sample.calm []) = Returns (Some d, Sample.calm []) /\
    non_blocking (options d) = true /\
    dont_track_packets (options d) = false /\
    timeout d = (-1)%Z /\
    server <$> con_list d =
      [(Buf.text "127.0.0.1", 4731%Z); (Buf.text "127.0.0.1", 4730%Z)] /\
    con_count d = 2 /\
    packet_list d = [] /\
    packet_count d = 0.
Proof.
  destruct (clone_copies_options_and_connections (X := Sample.loopback) None
              (Some (Sample.session
                       [Sample.connection 4730 1 true;
                        Sample.connection 4731 0 false]
                       true (Some 7)))
              (Sample.calm []))
    as [_ Hallocated].
  - intros old Hold. discriminate.
  - simpl. lia.
  - intros destination con destination' Hcopy. simpl in Hcopy.
    unfold Sample.connection_clone in Hcopy.
    destruct (decide (port con = 4733%Z)); [discriminate|].
    injection Hcopy as <-. by repeat split.
  - intros destination con destination' Hcopy. simpl in Hcopy.
    unfold Sample.connection_clone in Hcopy.
    destruct (decide (port con = 4733%Z)); [discriminate|].
    injection Hcopy as <-. split; [reflexivity|].
    eexists. split; reflexivity.
  - destruct Hallocated as [Hcloned _]; [intros _; reflexivity|].
    apply Hcloned.
    constructor; [|constructor; [|constructor]];
      intros destination; simpl; unfold Sample.connection_clone;
      (destruct (decide _) as [Hport|_]; [discriminate Hport|by eexists]).
Defined.

Lemma clone_without_memory :
  gearman_state_clone (X := Sample.loopback) None None Sample.out_of_memory =
  Returns (None, Sample.out_of_memory) /\
  gearman_state_clone (X := Sample.loopback) None
    (Some (Sample.session [Sample.connection 4730 1 true] true None))
    Sample.out_of_memory =
  Returns (None, Sample.out_of_memory) /\
  gearman_state_clone (X := Sample.loopback) None
    (Some (Sample.session
             [Sample.connection 4730 1 true; Sample.connection 4733 1 true]
             true None))
    (Sample.calm []) =
  Returns (None, Sample.calm []) /\
  exists d,
    gearman_state_clone_onto_itself (X := Sample.loopback)
      (Sample.session [Sample.connection 4730 1 true] true None)
      (Sample.calm []) = Returns (Some d, Sample.calm []) /\
    non_blocking (options d) = false /\
    non_blocking
      (options (Sample.session [Sample.connection 4730 1 true] true None)) =
      true /\
    con_list d = [] /\ con_count d = 0.
Proof.
  do 3 (split; [reflexivity|]).
  eexists. split; [vm_compute; reflexivity|]. by repeat split.
Qed.

(** ** Further properties of state.c *)

Section ErrorRecording.

Context {X : Collaborators}.

(** X1: for a function name that leaves room for the colon and a
    terminator, and without a log function, [gearman_state_set_error]
    leaves in [last_error] the C string ["<function>:<message>"] cut to
    [GEARMAN_MAX_ERROR_SIZE - 1] bytes, and the whole of it when it is
    shorter than the buffer; the chars of [last_error] behind the
    terminator, the size of the buffer and the world are as before. *)
Theorem set_error_records_line (state : gearman_state_st)
    (function formatted : list byte) (w : world) :
  log_fn state = None ->
  S (length function) < GEARMAN_MAX_ERROR_SIZE ->
  length (last_error state) = GEARMAN_MAX_ERROR_SIZE ->
  Buf.NUL ∉ function -> Buf.NUL ∉ formatted ->
  exists state',
    gearman_state_set_error state function formatted w = Returns (state', w) /\
    Buf.c_str (last_error state') =
      Some (take (GEARMAN_MAX_ERROR_SIZE - 1)
              (function ++ Buf.text ":" ++ formatted)) /\
    (S (length function) + length formatted < GEARMAN_MAX_ERROR_SIZE ->
     Buf.c_str (last_error state') =
       Some (function ++ Buf.text ":" ++ formatted)) /\
    length (last_error state') = GEARMAN_MAX_ERROR_SIZE /\
    forall i,
      GEARMAN_MAX_ERROR_SIZE `min`
        (S (S (length function)) + length formatted) <= i ->
      last_error state' !! i = last_error state !! i.
Proof.
  intros Hsink Hroom Hsize Hfunction Hformatted.
  rewrite set_error_formats by done. unfold error_recorded. rewrite Hsink.
  pose proof (length_error_line function formatted) as Hlen.
  pose proof (error_line_nul_free _ _ Hfunction Hformatted) as Hnul.
  eexists. split; [done|]. cbn [last_error set_last_error].
  split; [by rewrite c_str_text|]. split; [|split].
  - intros Hfits. rewrite c_str_text by done. f_equal.
    unfold error_line. apply take_ge. rewrite !length_app. simpl. lia.
  - rewrite length_app, length_fmap, length_app, length_drop. simpl. lia.
  - intros i Hi.
    rewrite lookup_app_r by (rewrite length_fmap, length_app; simpl; lia).
    rewrite lookup_drop, length_fmap, length_app. simpl. f_equal. lia.
Qed.

(** X2: with a log function registered, a function name that leaves room
    for the colon and a terminator (shorter than
    [GEARMAN_MAX_ERROR_SIZE - 1]) and texts without a NUL,
    [gearman_state_set_error] calls the log function once, after the calls
    made so far, with the registered context, at [GEARMAN_VERBOSE_FATAL]
    whatever verbosity the session is set to, and with a buffer of
    [GEARMAN_MAX_ERROR_SIZE] chars holding the C string
    ["<function>:<message>"] cut to [GEARMAN_MAX_ERROR_SIZE - 1] bytes; the
    session is left as it was, and of the world nothing changes but what
    that call changes. *)
Theorem set_error_calls_log_function (state : gearman_state_st)
    (function formatted : list byte) (w : world) (f : nat) :
  log_fn state = Some f ->
  S (length function) < GEARMAN_MAX_ERROR_SIZE ->
  Buf.NUL ∉ function -> Buf.NUL ∉ formatted ->
  exists line,
    gearman_state_set_error state function formatted w =
    Returns
      (state,
       add_log_call {| log_function := f; log_line := line;
                       log_verbose := GEARMAN_VERBOSE_FATAL;
                       log_ctx := log_context state |} w) /\
    length line = GEARMAN_MAX_ERROR_SIZE /\
    Buf.c_str line =
      Some (take (GEARMAN_MAX_ERROR_SIZE - 1)
              (function ++ Buf.text ":" ++ formatted)).
Proof.
  intros Hsink Hroom Hfunction Hformatted.
  rewrite set_error_formats by done. unfold error_recorded. rewrite Hsink.
  pose proof (length_error_line function formatted) as Hlen.
  pose proof (error_line_nul_free _ _ Hfunction Hformatted) as Hnul.
  eexists. split; [done|]. split.
  - rewrite length_app, length_fmap, length_app, length_replicate. simpl. lia.
  - by rewrite c_str_text.
Qed.

(** X3: a function name of [GEARMAN_MAX_ERROR_SIZE] bytes or more does not
    fit the local buffer it is copied into without a check: the behaviour
    of [gearman_state_set_error] is undefined, whatever the message and
    whether or not a log function is registered. *)
Theorem set_error_overruns_buffer (state : gearman_state_st)
    (function formatted : list byte) (w : world) :
  GEARMAN_MAX_ERROR_SIZE <= length function ->
  gearman_state_set_error state function formatted w = Undefined.
Proof. apply set_error_overflow. Qed.

Lemma set_error_frame (state state' : gearman_state_st)
    (function formatted : list byte) (w w' : world) :
  gearman_state_set_error state function formatted w = Returns (state', w') ->
  state' = set_last_error (last_error state') state /\
  match log_fn state with
  | None => w' = w
  | Some f =>
      state' = state /\
      exists line,
        w' = add_log_call {| log_function := f; log_line := line;
                             log_verbose := GEARMAN_VERBOSE_FATAL;
                             log_ctx := log_context state |} w
  end.
Proof.
  destruct (decide (length function < GEARMAN_MAX_ERROR_SIZE)) as [Hn|Hn].
  - destruct (set_error_returns state function formatted w Hn)
      as (e & w1 & -> & Hrecorded).
    intros [= <- <-]. split; [done|].
    destruct (log_fn state) as [f|].
    + destruct Hrecorded as (-> & line & -> & _).
      split; [by destruct state|]. by exists line.
    + by destruct Hrecorded as [-> _].
  - by rewrite set_error_overflow by lia.
Qed.

(** X4: whenever [gearman_state_set_error] returns, of the session at most
    [last_error] has changed.  Without a log function the world is as it
    was; with one, not even [last_error] has changed, and the world is the
    one the single call of the log function leaves, made at
    [GEARMAN_VERBOSE_FATAL] with the registered context. *)
Theorem set_error_touches_last_error_only (state state' : gearman_state_st)
    (function formatted : list byte) (w w' : world) :
  gearman_state_set_error state function formatted w = Returns (state', w') ->
  state' = set_last_error (last_error state') state /\
  match log_fn state with
  | None => w' = w
  | Some f =>
      state' = state /\
      exists line,
        w' = add_log_call {| log_function := f; log_line := line;
                             log_verbose := GEARMAN_VERBOSE_FATAL;
                             log_ctx := log_context state |} w
  end.
Proof. apply set_error_frame. Qed.

(** X5: registering a log function with [gearman_set_log_fn] turns the
    recording of errors over to it.  For a function name that leaves room
    for the colon and a terminator (shorter than
    [GEARMAN_MAX_ERROR_SIZE - 1]) and texts without a NUL: a following
    [gearman_state_set_error] hands the C string ["<function>:<message>"],
    cut to [GEARMAN_MAX_ERROR_SIZE - 1] bytes, to that function with the
    context registered, at [GEARMAN_VERBOSE_FATAL] whatever the verbosity
    registered, and leaves the session, with [last_error], alone; after
    registering NULL, the same call writes that C string to [last_error]
    and calls nothing. *)
Theorem set_log_fn_redirects_errors (state : gearman_state_st)
    (function formatted : list byte) (w : world)
    (f : nat) (context : option nat) (verbosity : Z) :
  S (length function) < GEARMAN_MAX_ERROR_SIZE ->
  Buf.NUL ∉ function -> Buf.NUL ∉ formatted ->
  (exists line,
     gearman_state_set_error
       (gearman_set_log_fn state (Some f) context verbosity)
       function formatted w =
     Returns
       (gearman_set_log_fn state (Some f) context verbosity,
        add_log_call {| log_function := f; log_line := line;
                        log_verbose := GEARMAN_VERBOSE_FATAL;
                        log_ctx := context |} w) /\
     Buf.c_str line =
       Some (take (GEARMAN_MAX_ERROR_SIZE - 1)
               (function ++ Buf.text ":" ++ formatted))) /\
  (exists state',
     gearman_state_set_error
       (gearman_set_log_fn state None context verbosity)
       function formatted w = Returns (state', w) /\
     Buf.c_str (last_error state') =
       Some (take (GEARMAN_MAX_ERROR_SIZE - 1)
               (function ++ Buf.text ":" ++ formatted))).
Proof.
  intros Hroom Hfunction Hformatted.
  pose proof (error_line_nul_free _ _ Hfunction Hformatted) as Hnul.
  split.
  - rewrite set_error_formats by done. eexists. split; [done|].
    by rewrite c_str_text.
  - rewrite set_error_formats by done. eexists. split; [done|].
    cbn. by rewrite c_str_text.
Qed.

End ErrorRecording.

Section LoggingProperties.

Context {X : Collaborators}.

Variable gearman_verbose_name : gearman_verbose_t -> list byte.


End LoggingProperties.

Section ReadyAndFlush.

Context {X : Collaborators}.

Lemma set_ready_unready (con : gearman_connection_st) :
  ready con = false -> set_ready false con = con.
Proof. destruct con. simpl. by intros ->. Qed.

Lemma ready_indices_unready (i : nat)
    (before rest : list gearman_connection_st) :
  Forall (fun con => ready con = false) before ->
  ready_indices i (before ++ rest) = ready_indices (i + length before) rest.
Proof.
  intros Hbefore. revert i.
  induction Hbefore as [|con before Hcon _ IH]; intros i; simpl.
  - by rewrite Nat.add_0_r.
  - rewrite Hcon, IH. f_equal. lia.
Qed.

Lemma clear_unready (conns : list gearman_connection_st) :
  Forall (fun con => ready con = false) conns ->
  set_ready false <$> conns = conns.
Proof.
  induction 1 as [|con conns Hcon _ IH]; csimpl; [done|].
  by rewrite set_ready_unready, IH.
Qed.

Lemma set_con_list_same (state : gearman_state_st) :
  set_con_list (con_list state) state = state.
Proof. by destruct state. Qed.

(** X7: calling [gearman_ready] again and again, as a caller draining the
    session does, returns the ready connections one by one in list order,
    each exactly once, and then NULL; with as many calls as there are ready
    connections, or more, the session ends up with every ready flag cleared
    and nothing else changed. *)
Theorem ready_drain_in_order (n : nat) (state : gearman_state_st) :
  length (ready_indices 0 (con_list state)) <= n ->
  ready_drain n state =
  (ready_indices 0 (con_list state),
   set_con_list (set_ready false <$> con_list state) state).
Proof.
  revert state. induction n as [|n IH]; intros state Hcount;
    destruct (ready_split_exists (con_list state))
      as (before & rest & Hlist & Hbefore & Hrest).
  - rewrite Hlist, ready_indices_unready in Hcount by done.
    destruct rest as [|con after].
    + rewrite app_nil_r in Hlist. cbn [ready_drain].
      rewrite Hlist at 1 2. rewrite <- (app_nil_r before) at 1.
      rewrite ready_indices_unready, clear_unready by done. simpl.
      by rewrite <- Hlist, set_con_list_same.
    + simpl in Hcount. rewrite Hrest in Hcount. simpl in Hcount. lia.
  - cbn [ready_drain]. unfold gearman_ready.
    rewrite Hlist, ready_scan_split by done.
    destruct rest as [|con after].
    + rewrite ready_indices_unready by done. simpl.
      rewrite app_nil_r in *. rewrite clear_unready by done.
      by rewrite <- Hlist, set_con_list_same.
    + rewrite Hlist, ready_indices_unready in Hcount by done.
      simpl in Hcount. rewrite Hrest in Hcount. simpl in Hcount.
      rewrite IH; cbn [con_list set_con_list].
      * rewrite !ready_indices_unready by done. simpl. rewrite Hrest.
        rewrite !fmap_app, !fmap_cons.
        destruct con; simpl. reflexivity.
      * rewrite ready_indices_unready by done. simpl. lia.
Qed.

Lemma flush_all_loop_result (o : gearman_state_options_t)
    (conns : list gearman_connection_st) :
  fst (flush_all_loop o conns) = GEARMAN_SUCCESS \/
  exists con,
    con ∈ conns /\ flush_fails o con /\
    fst (flush_all_loop o conns) = fst (gearman_connection_flush o con).
Proof.
  induction conns as [|con conns IH]; simpl; [by left|].
  case_decide as Hwaits.
  - destruct (flush_all_loop o conns) as [ret rest]. simpl in *.
    destruct IH as [->|(c & Hc & Hfails & ->)]; [by left|right].
    exists c. split; [by apply elem_of_cons; right|done].
  - destruct (gearman_connection_flush o con) as [ret con'] eqn:Hflush.
    destruct (gearman_failed ret) eqn:Hfailed.
    + right. exists con. split; [by apply elem_of_cons; left|].
      unfold flush_fails, waits_for_write. rewrite Hflush. simpl.
      split; [split; [by intros Hset|done]|done].
    + destruct (flush_all_loop o conns) as [ret' rest]. simpl in *.
      destruct IH as [->|(c & Hc & Hfails & ->)]; [by left|right].
      exists c. split; [by apply elem_of_cons; right|done].
Qed.

(** X8: [gearman_flush_all] never returns [GEARMAN_IO_WAIT]: a flush that
    would block is passed over.  Its result is [GEARMAN_SUCCESS], or it is
    the result of flushing one of the connections of the session, one that
    does not have the writable bit set, and that result is a failure in the
    sense of [gearman_failed]. *)
Theorem flush_all_never_waits (state : gearman_state_st) :
  fst (gearman_flush_all state) <> GEARMAN_IO_WAIT /\
  (fst (gearman_flush_all state) = GEARMAN_SUCCESS \/
   exists con,
     con ∈ con_list state /\
     ~ waits_for_write con /\
     gearman_failed (fst (gearman_connection_flush (options state) con))
       = true /\
     fst (gearman_flush_all state) =
       fst (gearman_connection_flush (options state) con)).
Proof.
  unfold gearman_flush_all.
  pose proof (flush_all_loop_result (options state) (con_list state))
    as Hret.
  destruct (flush_all_loop _ _) as [ret conns]. simpl in *.
  destruct Hret as [->|(con & Hcon & [Hwaits Hfailed] & ->)].
  - split; [done|by left].
  - split; [by intros Heq; rewrite Heq in Hfailed|].
    right. by exists con.
Qed.

End ReadyAndFlush.

Section Waiting.

Context {X : Collaborators}.

Lemma wait_fill_spec (conns : list gearman_connection_st)
    (entries entries' : list (option pollfd)) (x x' : nat) :
  wait_fill conns entries x = Returns (x', entries') ->
  x' = x + polled_entries conns /\
  length entries' = length entries /\
  (forall i, i < x -> entries' !! i = entries !! i) /\
  (forall j, x <= j < x' -> exists p, entries' !! j = Some (Some p)).
Proof.
  unfold polled_entries.
  revert entries x. induction conns as [|con conns IH]; intros entries x.
  - simpl. intros [= <- <-]. rewrite Nat.add_0_r.
    split; [done|split; [done|split; [done|intros j Hj; lia]]].
  - rewrite filter_cons. simpl. case_decide as Hevents.
    + rewrite (decide_False (P := events con <> 0%Z)) by (by intros Hne).
      apply IH.
    + rewrite (decide_True (P := events con <> 0%Z)) by done.
      case_decide as Hroom; [|done].
      intros Hfill. apply IH in Hfill as (-> & Hlen & Hbelow & Hfilled).
      rewrite length_insert in Hlen. simpl.
      split; [lia|split; [done|split]].
      * intros i Hi. rewrite Hbelow by lia.
        by rewrite list_lookup_insert_ne by lia.
      * intros j Hj. destruct (decide (j = x)) as [->|Hne].
        -- rewrite Hbelow by lia. rewrite list_lookup_insert_eq by done.
           by eexists.
        -- apply Hfilled. lia.
Qed.

Lemma tail_drop {A} (l : list A) (x : nat) : tail (drop x l) = drop (S x) l.
Proof.
  revert l. induction x as [|x IH]; intros [|a l]; simpl; by try done.
Qed.

Lemma wait_distribute_deliver (o : gearman_state_options_t)
    (conns : list gearman_connection_st) (entries : list (option pollfd))
    (reported : list Z) (x : nat) :
  (forall j, x <= j < x + polled_entries conns ->
     exists p, entries !! j = Some (Some p) /\
               pfd_revents p = default 0%Z (reported !! j)) ->
  wait_distribute o conns entries x =
  Returns (deliver o conns (drop x reported)).
Proof.
  unfold polled_entries.
  revert x. induction conns as [|con conns IH]; intros x; [done|].
  rewrite filter_cons. cbn [wait_distribute deliver].
  destruct (decide (events con = 0%Z)) as [Hz|Hnz].
  - rewrite (decide_False (P := events con <> 0%Z)) by (by intros Hne).
    intros Hentries. rewrite IH by done. cbn [outcome_bind].
    by destruct (deliver o conns (drop x reported)).
  - rewrite (decide_True (P := events con <> 0%Z)) by done.
    simpl. intros Hentries.
    destruct (Hentries x) as (p & -> & ->); [lia|].
    rewrite head_lookup, lookup_drop, Nat.add_0_r.
    destruct (gearman_connection_set_revents _ _ _) as [gret con'].
    destruct (not_success gret); [done|].
    rewrite IH; last first.
    { intros j Hj. apply Hentries. lia. }
    cbn [outcome_bind]. rewrite tail_drop.
    by destruct (deliver o conns (drop (S x) reported)).
Qed.

Lemma wait_ready_fields (state : gearman_state_st) :
  options (wait_ready state) = options state /\
  con_list (wait_ready state) = con_list state /\
  last_error (wait_ready state) = last_error state /\
  last_errno (wait_ready state) = last_errno state.
Proof. unfold wait_ready. by case_decide. Qed.

Lemma wait_reaches_poll_filled (state : gearman_state_st) (w : world) :
  (pfds_size state < con_count state -> heap_exhausted w = false) ->
  con_count state = length (con_list state) ->
  0 < polled_entries (con_list state) ->
  exists entries,
    wait_fill (con_list state) (pfds (wait_ready state)) 0 =
    Returns (polled_entries (con_list state), entries) /\
    gearman_wait state w =
    wait_polled (set_pfds entries (wait_ready state))
      (polled_entries (con_list state)) w.
Proof.
  intros Hheap Hcount Hactive.
  pose proof (wait_ready_capacity state) as Hcap.
  pose proof (polled_entries_le (con_list state)) as Hle.
  destruct (wait_fill_fits (con_list state) (pfds (wait_ready state)) 0)
    as (entries & Hfill & _).
  { unfold pfds_size in Hcap. simpl. lia. }
  exists entries. split; [done|]. unfold gearman_wait, wait_ready in *.
  case_decide as Hgrow.
  - rewrite Hheap by done. change (con_list (wait_grown state))
      with (con_list state).
    rewrite Hfill. cbn [outcome_bind]. simpl. by rewrite decide_False by lia.
  - rewrite Hfill. cbn [outcome_bind]. simpl. by rewrite decide_False by lia.
Qed.

(** X9: when [poll] reports events (a result other than -1 and 0, possibly
    after interrupted calls), [gearman_wait] hands every connection that
    wants events the [revents] of the polling entry made for that very
    connection: the connections with a non-empty mask take the reported
    [revents] one each in list order, connections with an empty mask are
    passed over, and the first connection that does not take its events
    with [GEARMAN_SUCCESS] ends the call with its return code, the
    connections behind it not being handed anything.  Without such a
    connection the call returns [GEARMAN_SUCCESS].  The interrupted answers
    of [poll] and the one that reports the events are used up. *)
Theorem wait_delivers_events (state : gearman_state_st) (w : world)
    (interrupted rest : list poll_answer) (a : poll_answer) :
  (pfds_size state < con_count state -> heap_exhausted w = false) ->
  con_count state = length (con_list state) ->
  0 < polled_entries (con_list state) ->
  poll_answers w = interrupted ++ a :: rest ->
  Forall is_interrupted interrupted ->
  poll_ret a <> (-1)%Z ->
  poll_ret a <> 0%Z ->
  exists state' w',
    gearman_wait state w =
    Returns
      (fst (deliver (options state) (con_list state) (poll_revents a)),
       state', w') /\
    con_list state' =
      snd (deliver (options state) (con_list state) (poll_revents a)) /\
    poll_answers w' = rest.
Proof.
  intros Hheap Hcount Hactive Hw Hall Hret Hzero.
  destruct (wait_reaches_poll_filled state w Hheap Hcount Hactive)
    as (entries & Hfill & ->).
  apply wait_fill_spec in Hfill as (_ & _ & _ & Hfilled).
  destruct (wait_polled_interrupted (set_pfds entries (wait_ready state))
              (polled_entries (con_list state)) _ _ w Hall Hw)
    as (w1 & -> & Hw1 & _ & Hlog).
  destruct (wait_ready_fields state) as (Ho & Hc & He & Hn).
  unfold wait_polled. rewrite Hw1. cbn [wait_poll]. unfold poll.
  rewrite (decide_False (P := poll_ret a = (-1)%Z)) by done.
  rewrite (decide_False (P := poll_ret a = (-1)%Z)) by done.
  cbn [outcome_bind]. rewrite decide_False by done.
  cbn [options con_list pfds set_pfds]. rewrite Ho, Hc.
  rewrite (wait_distribute_deliver _ _ _ (poll_revents a)); last first.
  { intros j Hj. destruct (Hfilled j) as [p Hp]; [lia|].
    rewrite list_lookup_imap, Hp. simpl.
    rewrite decide_True by lia. by eexists. }
  rewrite drop_0. cbn [outcome_bind].
  destruct (deliver _ _ _) as [gret conns]. do 2 eexists.
  split; [done|]. by simpl.
Qed.

(** The session with the four things [gearman_wait] writes put in. *)
Lemma wait_shape_same (state : gearman_state_st) :
  state =
  set_con_list (con_list state)
    (set_last_errno (last_errno state)
       (set_last_error (last_error state) (set_pfds (pfds state) state))).
Proof. by destruct state. Qed.

Lemma wait_poll_shape (state state' : gearman_state_st) (x : nat)
    (answers : list poll_answer) (w w' : world)
    (polled : gearman_return_t + Z) :
  wait_poll state x answers w = Returns (polled, state', w') ->
  exists entries e l,
    state' = set_last_errno e (set_last_error l (set_pfds entries state)) /\
    length entries = length (pfds state) /\
    match polled with
    | inl gret => gret = GEARMAN_ERRNO
    | inr _ => e = last_errno state
    end.
Proof.
  revert state w. induction answers as [|a answers IH]; intros state w;
    [done|].
  cbn [wait_poll]. unfold poll.
  destruct (decide (poll_ret a = (-1)%Z)) as [Hret|Hret].
  - rewrite (decide_True (P := (-1)%Z = (-1)%Z)) by done.
    rewrite set_pfds_same. case_decide as Herrno.
    + apply IH.
    + destruct (gearman_state_set_error _ _ _ _) as [[s1 w1]| |] eqn:Hset;
        [|done..].
      apply set_error_frame in Hset as (Hs1 & _).
      cbn [outcome_bind]. intros Heq. injection Heq as Hp Hs Hw.
      exists (pfds state), (errno w1), (last_error s1).
      rewrite set_pfds_same, <- Hs, <- Hp. split; [by f_equal|done].
  - rewrite decide_False by done.
    match goal with
    | |- Returns (_, set_pfds ?p _, _) = _ -> _ => set (entries := p)
    end.
    intros Heq. injection Heq as Hp Hs Hw.
    exists entries, (last_errno state), (last_error state).
    rewrite <- Hs, <- Hp.
    split; [by destruct state|]. split; [|done].
    subst entries. by rewrite length_imap.
Qed.

Lemma wait_distribute_length (o : gearman_state_options_t)
    (conns conns' : list gearman_connection_st)
    (entries : list (option pollfd)) (x : nat) (gret : gearman_return_t) :
  wait_distribute o conns entries x = Returns (gret, conns') ->
  length conns' = length conns.
Proof.
  revert x conns' gret.
  induction conns as [|con conns IH]; intros x conns' gret; simpl.
  - by intros [= <- <-].
  - case_decide.
    + destruct (wait_distribute o conns entries x) as [[g rest]| |] eqn:Hrest;
        [|done..].
      cbn [outcome_bind]. intros [= <- <-]. simpl. f_equal. by eapply IH.
    + destruct (entries !! x) as [[p|]|]; [|done..].
      destruct (gearman_connection_set_revents _ _ _) as [g con'].
      destruct (not_success g).
      * by intros [= <- <-].
      * destruct (wait_distribute o conns entries (S x))
          as [[g' rest]| |] eqn:Hrest; [|done..].
        cbn [outcome_bind]. intros [= <- <-]. simpl. f_equal. by eapply IH.
Qed.

Lemma wait_shape (state state' : gearman_state_st) (w w' : world)
    (ret : gearman_return_t) :
  gearman_wait state w = Returns (ret, state', w') ->
  exists conns entries e l,
    state' =
    set_con_list conns
      (set_last_errno e (set_last_error l (set_pfds entries state))) /\
    length conns = length (con_list state) /\
    (length entries = pfds_size state `max` con_count state \/
     ret = GEARMAN_MEMORY_ALLOCATION_FAILURE /\ entries = pfds state) /\
    (e <> last_errno state -> ret = GEARMAN_ERRNO).
Proof.
  unfold gearman_wait.
  set (grown := if decide (pfds_size state < con_count state) then _ else _).
  assert (Hgrown : grown = None \/
    exists entries, grown = Some (set_pfds entries state) /\
      length entries = pfds_size state `max` con_count state).
  { subst grown. case_decide.
    - destruct (heap_exhausted w); [by left|right].
      eexists. split; [reflexivity|].
      unfold pfds_size in *. rewrite length_app, length_replicate. lia.
    - right. exists (pfds state). rewrite set_pfds_same.
      split; [done|]. unfold pfds_size in *. lia. }
  destruct Hgrown as [->|(entries0 & -> & Hlen0)].
  - destruct (gearman_state_set_error _ _ _ _) as [[s1 w1]| |] eqn:Hset;
      [|done..].
    apply set_error_frame in Hset as (Hs1 & _).
    cbn [outcome_bind]. intros [= <- <- <-].
    exists (con_list state), (pfds state), (last_errno state), (last_error s1).
    split; [rewrite Hs1 at 1; by destruct state|]. split; [done|].
    split; [by right|done].
  - cbn [con_list pfds set_pfds].
    destruct (wait_fill _ _ _) as [[x entries]| |] eqn:Hfill; [|done..].
    apply wait_fill_spec in Hfill as (_ & Hlen & _).
    cbn [outcome_bind]. case_decide.
    + destruct (gearman_state_set_error _ _ _ _) as [[s1 w1]| |] eqn:Hset;
        [|done..].
      apply set_error_frame in Hset as (Hs1 & _).
      cbn [outcome_bind]. intros [= <- <- <-].
      exists (con_list state), entries, (last_errno state), (last_error s1).
      split; [rewrite Hs1 at 1; by destruct state|]. split; [done|].
      split; [left; lia|done].
    + unfold wait_polled.
      destruct (wait_poll _ _ _ _) as [[[polled s1] w1]| |] eqn:Hpoll;
        [|done..].
      apply wait_poll_shape in Hpoll as (entries1 & e & l & -> & Hlen1 & Hp).
      cbn [pfds set_pfds] in Hlen1.
      cbn [outcome_bind]. destruct polled as [gret|pret].
      * intros [= <- <- <-]. subst gret.
        exists (con_list state), entries1, e, l.
        split; [by destruct state|]. split; [done|].
        split; [left; lia|done].
      * subst e. case_decide.
        -- destruct (gearman_state_set_error _ _ _ _) as [[s2 w2]| |]
             eqn:Hset; [|done..].
           apply set_error_frame in Hset as (Hs2 & _).
           cbn [outcome_bind]. intros [= <- <- <-].
           exists (con_list state), entries1, (last_errno state),
             (last_error s2).
           split; [rewrite Hs2 at 1; by destruct state|]. split; [done|].
           split; [left; lia|done].
        -- destruct (wait_distribute _ _ _ _) as [[gret conns]| |] eqn:Hdist;
             [|done..].
           apply wait_distribute_length in Hdist.
           cbn [outcome_bind]. intros [= <- <- <-].
           exists conns, entries1, (last_errno state), l.
           split; [by destruct state|]. split; [done|].
           split; [left; lia|done].
Qed.

(** X10: whenever [gearman_wait] returns, with whatever code, it has
    changed nothing of the session but the connections themselves (their
    number stays), the polling array, [last_errno] and [last_error]:
    options, timeout, counters, packets and hooks are as before.  The
    polling array never shrinks: it holds the larger of its old size and
    [con_count] entries, unless the call failed to grow it, in which case
    the array is untouched and the result is
    [GEARMAN_MEMORY_ALLOCATION_FAILURE].  [last_errno] changes only with
    the result [GEARMAN_ERRNO]. *)
Theorem wait_keeps_session (state state' : gearman_state_st) (w w' : world)
    (ret : gearman_return_t) :
  gearman_wait state w = Returns (ret, state', w') ->
  wait_frame state state' /\
  pfds_size state <= pfds_size state' /\
  (pfds_size state' = pfds_size state `max` con_count state \/
   ret = GEARMAN_MEMORY_ALLOCATION_FAILURE /\ pfds state' = pfds state) /\
  (last_errno state' <> last_errno state -> ret = GEARMAN_ERRNO).
Proof.
  intros Hwait.
  apply wait_shape in Hwait
    as (conns & entries & e & l & -> & Hconns & Hentries & Herrno).
  unfold wait_frame, pfds_size. simpl. repeat split; try done.
  - destruct Hentries as [Hlen|[_ ->]]; unfold pfds_size in *; lia.
Qed.

End Waiting.

Section Echoing.

Context {X : Collaborators}.

Lemma echo_loop_intact (o : gearman_state_options_t)
    (request : gearman_packet_st) (workload : list byte)
    (conns : list gearman_connection_st) :
  Forall (echo_intact o request workload) conns ->
  echo_loop o request workload conns =
  (Echo_done, echo_settled o request <$> conns).
Proof.
  induction 1 as [|con conns (answered & Hcon & Hdata) _ IH]; csimpl;
    [done|].
  unfold echo_settled. rewrite Hcon. unfold echo_exchange in Hcon.
  destruct (gearman_connection_send o con request true) as [ret sent].
  destruct (not_success ret); [done|].
  destruct (gearman_connection_recv o sent true) as [ret' received].
  destruct (not_success ret'); [done|].
  injection Hcon as ->.
  by rewrite echo_compare_equal, IH by done.
Qed.

Lemma echo_loop_breaks (o : gearman_state_options_t)
    (request : gearman_packet_st) (workload : list byte)
    (before after : list gearman_connection_st)
    (con con' : gearman_connection_st) (ret : gearman_return_t) :
  Forall (echo_intact o request workload) before ->
  echo_breaks o request con ret con' ->
  echo_loop o request workload (before ++ con :: after) =
  (Echo_return ret, (echo_settled o request <$> before) ++ con' :: after).
Proof.
  intros Hbefore [Hret Hbreaks].
  assert (Hfails : not_success ret = true)
    by (by apply bool_decide_eq_true_2).
  induction Hbefore as [|c before (answered & Hc & Hdata) _ IH]; csimpl.
  - destruct Hbreaks as [->|(sent & -> & ->)].
    + by rewrite Hfails.
    + change (not_success GEARMAN_SUCCESS) with false. cbv iota.
      by rewrite Hfails.
  - unfold echo_settled at 1. rewrite Hc. unfold echo_exchange in Hc.
    destruct (gearman_connection_send o c request true) as [r sent].
    destruct (not_success r); [done|].
    destruct (gearman_connection_recv o sent true) as [r' received].
    destruct (not_success r'); [done|].
    injection Hc as ->.
    by rewrite echo_compare_equal, IH by done.
Qed.

Lemma echo_restored (state : gearman_state_st)
    (conns : list gearman_connection_st) :
  gearman_state_pop_non_blocking
    (set_con_list conns (gearman_state_push_blocking state)) =
  set_options
    (set_stored_non_blocking (non_blocking (options state)) (options state))
    (set_con_list conns state).
Proof. by destruct state as [[]]. Qed.

(** X11: when the request packet can be built and every connection of the
    session echoes the workload intact, [gearman_echo] returns
    [GEARMAN_SUCCESS]; in particular it does so, without any exchange, for
    a session without connections.  Each connection is left as its exchange
    leaves it, with the packet received freed again; of the rest of the
    session only [stored_non_blocking] may have changed, which now holds
    the mode of the session; [last_error] is not written and the log
    function not called. *)
Theorem echo_all_intact (state : gearman_state_st) (workload : list byte)
    (w : world) (request : gearman_packet_st) :
  gearman_packet_create_args state GEARMAN_MAGIC_REQUEST
    GEARMAN_COMMAND_ECHO_REQ [workload] = (GEARMAN_SUCCESS, request) ->
  Forall (echo_intact (echo_options state) request workload)
    (con_list state) ->
  gearman_echo state workload w =
  Returns
    (GEARMAN_SUCCESS,
     set_options
       (set_stored_non_blocking (non_blocking (options state))
          (options state))
       (set_con_list
          (echo_settled (echo_options state) request <$> con_list state)
          state),
     w).
Proof.
  intros Hcreate Hintact. unfold gearman_echo.
  rewrite Hcreate. change (not_success GEARMAN_SUCCESS) with false.
  cbv iota.
  change (con_list (gearman_state_push_blocking state)) with (con_list state).
  unfold echo_options in Hintact. rewrite echo_loop_intact by done.
  by rewrite echo_restored.
Qed.

(** X12: when the request packet can be built, the connections in front of
    [con] echo the workload intact, and on [con] the send, or after a
    successful send the receive, ends with a code [ret] other than
    [GEARMAN_SUCCESS], then [gearman_echo] returns exactly [ret], be it
    [GEARMAN_IO_WAIT] or a failure.  The connections in front of [con] are
    left as their exchanges leave them, with the packets received freed
    again, [con] as the call that ended the exchange leaves it, the
    connections behind [con] are not touched, and the mode of the session
    is as before the call. *)
Theorem echo_first_failure (state : gearman_state_st) (workload : list byte)
    (w : world) (request : gearman_packet_st)
    (before after : list gearman_connection_st)
    (con con' : gearman_connection_st) (ret : gearman_return_t) :
  gearman_packet_create_args state GEARMAN_MAGIC_REQUEST
    GEARMAN_COMMAND_ECHO_REQ [workload] = (GEARMAN_SUCCESS, request) ->
  con_list state = before ++ con :: after ->
  Forall (echo_intact (echo_options state) request workload) before ->
  echo_breaks (echo_options state) request con ret con' ->
  exists state' w',
    gearman_echo state workload w = Returns (ret, state', w') /\
    con_list state' =
      (echo_settled (echo_options state) request <$> before)
      ++ con' :: after /\
    non_blocking (options state') = non_blocking (options state).
Proof.
  intros Hcreate Hlist Hbefore Hbreaks. unfold gearman_echo.
  rewrite Hcreate. change (not_success GEARMAN_SUCCESS) with false.
  cbv iota.
  change (con_list (gearman_state_push_blocking state)) with (con_list state).
  unfold echo_options in Hbefore, Hbreaks.
  rewrite Hlist, (echo_loop_breaks _ _ _ _ _ _ con' ret) by done.
  rewrite echo_restored. by do 2 eexists.
Qed.

End Echoing.

(** *** Diagnostics of errors *)

Section Diagnostics.

Context {X : Collaborators}.













End Diagnostics.


Section Creating.

Context {X : Collaborators}.

Lemma create_options_terminated (o : gearman_state_options_t)
    (l rest : list gearman_options_t) :
  GEARMAN_MAX ∉ l ->
  create_options o (l ++ GEARMAN_MAX :: rest) =
  Returns (foldl gearman_add_options o l).
Proof.
  revert o. induction l as [|opt l IH]; intros o Hl;
    cbn [create_options app foldl].
  - by rewrite decide_True.
  - apply not_elem_of_cons in Hl as [Hopt Hl].
    rewrite decide_False by done. by apply IH.
Qed.

Lemma create_options_unterminated (o : gearman_state_options_t)
    (l : list gearman_options_t) :
  GEARMAN_MAX ∉ l -> create_options o l = Undefined.
Proof.
  revert o. induction l as [|opt l IH]; intros o Hl;
    cbn [create_options]; [done|].
  apply not_elem_of_cons in Hl as [Hopt Hl].
  rewrite decide_False by done. by apply IH.
Qed.

(** X13: [gearman_state_create] reads the caller's option array up to its
    first [GEARMAN_MAX] and no further: the options in front of it are
    added in order to the default flags, whatever stands behind it is
    ignored.  The [allocated] flag with which the options start tells
    whether the function allocated the session itself.  Every other field
    comes out with its default whatever the memory held, and the error
    message is empty. *)
Theorem create_reads_options_to_terminator
    (state : option gearman_state_st) (l rest : list gearman_options_t)
    (w : world) :
  (state = None -> heap_exhausted w = false) ->
  (forall old, state = Some old -> 0 < length (last_error old)) ->
  0 < GEARMAN_MAX_ERROR_SIZE ->
  GEARMAN_MAX ∉ l ->
  exists d,
    gearman_state_create state (Some (l ++ GEARMAN_MAX :: rest)) w =
    Returns (Some d, w) /\
    options d =
      foldl gearman_add_options
        {| allocated := match state with Some _ => false | None => true end;
           dont_track_packets := false; non_blocking := false;
           stored_non_blocking := false |} l /\
    timeout d = (-1)%Z /\ verbose d = 0%Z /\ last_errno d = 0%Z /\
    con_list d = [] /\ con_count d = 0 /\
    packet_list d = [] /\ packet_count d = 0 /\
    pfds d = [] /\ sending d = 0 /\
    log_fn d = None /\ log_context d = None /\
    event_watch_fn d = None /\ event_watch_context d = None /\
    workload_malloc_fn d = None /\ workload_malloc_context d = None /\
    workload_free_fn d = None /\ workload_free_context d = None /\
    Buf.c_str (last_error d) = Some [].
Proof.
  intros Hheap Hbuffer Hmax Hl. unfold gearman_state_create.
  destruct state as [old|].
  - specialize (Hbuffer old eq_refl).
    destruct (last_error old) as [|c cells] eqn:Hold; [simpl in *; lia|].
    rewrite create_options_terminated by done. cbn [outcome_bind].
    unfold Buf.store.
    destruct (decide _) as [_|Hn]; [|simpl in Hn; lia].
    cbn [outcome_bind]. eexists. split; [done|]. by repeat split.
  - rewrite Hheap by done.
    rewrite create_options_terminated by done. cbn [outcome_bind].
    destruct GEARMAN_MAX_ERROR_SIZE as [|n]; [lia|].
    unfold Buf.store.
    destruct (decide _) as [_|Hn]; [|simpl in Hn; lia].
    cbn [outcome_bind]. eexists. split; [done|]. by repeat split.
Qed.

(** X14: an option array without a [GEARMAN_MAX] makes
    [gearman_state_create] read past its end: once the memory for the
    session is there, the behaviour is undefined.  The function does not
    get that far only when it has to allocate the session and cannot. *)
Theorem create_needs_terminator (state : option gearman_state_st)
    (l : list gearman_options_t) (w : world) :
  GEARMAN_MAX ∉ l ->
  gearman_state_create state (Some l) w =
  match state with
  | Some _ => Undefined
  | None => if heap_exhausted w then Returns (None, w) else Undefined
  end.
Proof.
  intros Hl. unfold gearman_state_create.
  destruct state as [old|]; [|destruct (heap_exhausted w); [done|]];
    by rewrite create_options_unterminated.
Qed.

Lemma clone_connections_only (conns : list gearman_connection_st)
    (destination cloned : gearman_state_st) :
  clone_adds_connections_only ->
  clone_connections conns destination = Some cloned ->
  stored_non_blocking (options cloned) =
    stored_non_blocking (options destination) /\
  verbose cloned = verbose destination /\
  sending cloned = sending destination /\
  last_errno cloned = last_errno destination /\
  pfds cloned = pfds destination /\
  log_fn cloned = log_fn destination /\
  log_context cloned = log_context destination /\
  event_watch_fn cloned = event_watch_fn destination /\
  event_watch_context cloned = event_watch_context destination /\
  workload_malloc_fn cloned = workload_malloc_fn destination /\
  workload_malloc_context cloned = workload_malloc_context destination /\
  workload_free_fn cloned = workload_free_fn destination /\
  workload_free_context cloned = workload_free_context destination /\
  last_error cloned = last_error destination.
Proof.
  intros Honly. revert destination.
  induction conns as [|con conns IH]; intros destination; simpl.
  - by intros [= ->].
  - destruct (gearman_connection_clone destination con) as [next|] eqn:Hnext;
      [|done].
    intros Hrest.
    destruct (Honly _ _ _ Hnext)
      as (<- & <- & _ & <- & <- & _ & _ & <- & <- & <- & <- & <- & <- & <-
          & <- & <- & <-).
    by apply IH.
Qed.

(** X15: a clone takes over from its source the two option flags, the
    timeout and the connections, and nothing else: given that
    [gearman_connection_clone] changes nothing of the destination but its
    connections, the session [gearman_state_clone] returns has no log
    function, no event-watch, allocation or free hook and no contexts,
    verbosity 0, [last_errno] 0, an empty error message, no polling array
    and a cleared [stored_non_blocking], whatever the source has there. *)
Theorem clone_leaves_hooks_behind
    (destination : option gearman_state_st) (source d : gearman_state_st)
    (w w' : world) :
  clone_adds_connections_only ->
  gearman_state_clone destination (Some source) w = Returns (Some d, w') ->
  log_fn d = None /\ log_context d = None /\
  event_watch_fn d = None /\ event_watch_context d = None /\
  workload_malloc_fn d = None /\ workload_malloc_context d = None /\
  workload_free_fn d = None /\ workload_free_context d = None /\
  verbose d = 0%Z /\ last_errno d = 0%Z /\ sending d = 0 /\
  pfds d = [] /\ stored_non_blocking (options d) = false /\
  Buf.c_str (last_error d) = Some [].
Proof.
  intros Honly. unfold gearman_state_clone, gearman_state_create.
  destruct (match destination with
            | Some old => _
            | None => _
            end) as [[is_allocated error_buffer]|]; [|done].
  cbn [outcome_bind]. unfold Buf.store.
  destruct (decide _) as [Hfits|]; [|done].
  cbn [outcome_bind]. intros [= Hcloned <-].
  apply (clone_connections_only _ _ _ Honly) in Hcloned
    as (-> & -> & -> & -> & -> & -> & -> & -> & -> & -> & -> & -> & -> & ->).
  simpl. repeat split; try done.
Qed.

End Creating.

Section OptionsAndModes.

Context {X : Collaborators}.

(** X16: the two options of [gearman_set_option] are independent and the
    last write wins: setting [GEARMAN_NON_BLOCKING] and
    [GEARMAN_DONT_TRACK_PACKETS] in either order gives the same session,
    setting one option twice gives what the second call alone gives, and a
    call in between with an option that is rejected changes nothing. *)
Theorem set_option_composes (state : gearman_state_st) (v1 v2 : bool)
    (other : gearman_options_t) :
  other <> GEARMAN_NON_BLOCKING -> other <> GEARMAN_DONT_TRACK_PACKETS ->
  let set s o v := snd (gearman_set_option s o v) in
  set (set state GEARMAN_NON_BLOCKING v1) GEARMAN_DONT_TRACK_PACKETS v2 =
  set (set state GEARMAN_DONT_TRACK_PACKETS v2) GEARMAN_NON_BLOCKING v1 /\
  set (set state GEARMAN_NON_BLOCKING v1) GEARMAN_NON_BLOCKING v2 =
  set state GEARMAN_NON_BLOCKING v2 /\
  set (set state GEARMAN_DONT_TRACK_PACKETS v1) GEARMAN_DONT_TRACK_PACKETS v2 =
  set state GEARMAN_DONT_TRACK_PACKETS v2 /\
  set (set (set state GEARMAN_NON_BLOCKING v1) other v2)
    GEARMAN_DONT_TRACK_PACKETS v2 =
  set (set state GEARMAN_NON_BLOCKING v1) GEARMAN_DONT_TRACK_PACKETS v2.
Proof.
  intros Hnb Hdtp. by destruct other.
Qed.

(** X17: [gearman_state_push_blocking] keeps one mode only.  After one push
    the session is blocking and [stored_non_blocking] holds the mode it
    had; a second push before the pop stores the blocking mode of the
    first over it, so that a session that was non-blocking comes out of
    two pushes and two pops blocking, while one push and one pop give it
    its mode back. *)
Theorem push_blocking_does_not_nest (state : gearman_state_st) :
  let pushed := gearman_state_push_blocking state in
  non_blocking (options pushed) = false /\
  stored_non_blocking (options pushed) = non_blocking (options state) /\
  stored_non_blocking (options (gearman_state_push_blocking pushed)) = false
  /\
  non_blocking (options (gearman_state_pop_non_blocking pushed)) =
    non_blocking (options state) /\
  non_blocking
    (options
       (gearman_state_pop_non_blocking
          (gearman_state_pop_non_blocking
             (gearman_state_push_blocking pushed)))) = false.
Proof. done. Qed.

End OptionsAndModes.

(** ** Properties of the status loop of reverse_client_epoch.cc *)

Section StatusLoop.

Import Example.

Variable gearman_continue : gearman_return_t -> bool.
Variable gearman_failed : gearman_return_t -> bool.

Lemma status_loop_goes_on (before rest : list status_answer)
    (is_known : option bool) (out : list printed) :
  Forall (goes_on gearman_continue gearman_failed) before ->
  status_loop gearman_continue gearman_failed (before ++ rest) is_known out =
  status_loop gearman_continue gearman_failed rest
    (match before with [] => is_known | _ :: _ => Some true end)
    (out ++ lines_of gearman_continue before).
Proof.
  intros Hbefore. revert is_known out.
  induction Hbefore as [|b before [Hknown Hkind] _ IH]; intros is_known out.
  - cbn. by rewrite app_nil_r.
  - cbn [app status_loop]. unfold known_after.
    unfold lines_of. cbn [omap list_omap]. fold (lines_of gearman_continue before).
    rewrite Hknown.
    destruct (gearman_continue (status_ret b)) eqn:Hcontinue.
    + rewrite IH. cbn. by destruct before.
    + destruct Hkind as [?|(-> & [r ->] & [n ->] & [d ->])]; [done|].
      rewrite IH. cbn. rewrite <- app_assoc. by destruct before.
Qed.

(** X18: the run the loop is written for.  As long as the calls of
    [gearman_client_job_status] report the job known, each either asking to
    be repeated or succeeding with its four results written, the loop goes
    on, printing one status line for every call that succeeded and none
    for a call to be repeated; the first call that succeeds and reports the
    job unknown has its line printed and ends the loop with
    [EXIT_SUCCESS], the answers behind it not being asked for. *)
Theorem status_poll_until_unknown (before rest : list status_answer)
    (a : status_answer) (running : bool) (numerator denominator : Z) :
  Forall (goes_on gearman_continue gearman_failed) before ->
  gearman_continue (status_ret a) = false ->
  gearman_failed (status_ret a) = false ->
  status_known a = Some false ->
  status_running a = Some running ->
  status_numerator a = Some numerator ->
  status_denominator a = Some denominator ->
  status_poll gearman_continue gearman_failed (before ++ a :: rest) =
  Returns
    (EXIT_SUCCESS,
     lines_of gearman_continue before ++
     [Status_line false running numerator denominator],
     rest).
Proof.
  intros Hbefore Hcontinue Hfailed Hknown Hrunning Hnumerator Hdenominator.
  unfold status_poll. rewrite status_loop_goes_on by done.
  cbn [status_loop]. unfold known_after.
  by rewrite Hcontinue, Hfailed, Hknown, Hrunning, Hnumerator, Hdenominator.
Qed.

Lemma status_loop_output (answers rest : list status_answer)
    (is_known : option bool) (out out' : list printed) (code : exit_code) :
  status_loop gearman_continue gearman_failed answers is_known out =
  Returns (code, out', rest) ->
  exists statuses closing,
    out' = out ++ statuses ++ closing /\
    Forall (fun p => exists r n d, p = Status_line true r n d) statuses /\
    match code with
    | EXIT_SUCCESS =>
        closing = [] \/ exists r n d, closing = [Status_line false r n d]
    | EXIT_FAILURE =>
        exists a, a ∈ answers /\ closing = [Error_line (status_error a)]
    end.
Proof.
  revert is_known out.
  induction answers as [|a answers IH]; intros is_known out; [done|].
  cbn [status_loop].
  destruct (gearman_continue (status_ret a)).
  - destruct (known_after is_known a) as [[|]|]; [| |done].
    + intros Hloop. apply IH in Hloop
        as (statuses & closing & -> & Hstatuses & Hclosing).
      exists statuses, closing. split; [done|]. split; [done|].
      destruct code; [done|].
      destruct Hclosing as (b & Hb & ->). exists b. split; [|done].
      by apply elem_of_cons; right.
    + intros Heq. injection Heq as <- <- <-. exists [], [].
      rewrite app_nil_r. split; [done|]. split; [constructor|by left].
  - destruct (gearman_failed (status_ret a)).
    + intros Heq. injection Heq as <- <- <-.
      exists [], [Error_line (status_error a)].
      split; [done|]. split; [constructor|]. exists a. split; [|done].
      by apply elem_of_cons; left.
    + destruct (known_after is_known a) as [k|]; [|done].
      destruct (status_running a) as [r|]; [|done].
      destruct (status_numerator a) as [n|]; [|done].
      destruct (status_denominator a) as [d|]; [|done].
      destruct k.
      * intros Hloop. apply IH in Hloop
          as (statuses & closing & -> & Hstatuses & Hclosing).
        exists (Status_line true r n d :: statuses), closing.
        split; [by rewrite <- !app_assoc|].
        split; [constructor; [by eauto|done]|].
        destruct code; [done|].
        destruct Hclosing as (b & Hb & ->). exists b. split; [|done].
        by apply elem_of_cons; right.
      * intros Heq. injection Heq as <- <- <-.
        exists [], [Status_line false r n d].
        split; [done|]. split; [constructor|]. right. by eauto.
Qed.

(** X19: whatever the calls answer, when the loop ends what it has printed
    is a run of status lines that all say the job is known, closed by at
    most one more line; and the exit code tells which: with
    [EXIT_FAILURE] the closing line is the error text of the client after
    one of the calls, with [EXIT_SUCCESS] it is a status line saying the job
    is not known, or there is none (the loop was left at a call to be
    repeated that reported the job unknown).  So an error is printed in
    exactly the runs that exit with [EXIT_FAILURE], and nothing is printed
    after it. *)
Theorem status_poll_output (answers rest : list status_answer)
    (out : list printed) (code : exit_code) :
  status_poll gearman_continue gearman_failed answers =
  Returns (code, out, rest) ->
  exists statuses closing,
    out = statuses ++ closing /\
    Forall (fun p => exists r n d, p = Status_line true r n d) statuses /\
    match code with
    | EXIT_SUCCESS =>
        closing = [] \/ exists r n d, closing = [Status_line false r n d]
    | EXIT_FAILURE =>
        exists a, a ∈ answers /\ closing = [Error_line (status_error a)]
    end.
Proof.
  intros Hpoll. by apply status_loop_output in Hpoll.
Qed.

(** X20: [is_known] is not initialised before the loop, and a [continue]
    goes on to test it.  When the first call of
    [gearman_client_job_status] leaves [is_known] unwritten, the only
    defined run is the one in which that call is not to be repeated and
    has failed: the loop is left by [break] with the error printed and
    [EXIT_FAILURE] before the variable is read.  Otherwise the variable is
    read indeterminate, by the test of the loop or by the status line, and
    the behaviour is undefined. *)
Theorem status_poll_reads_is_known (a : status_answer)
    (rest : list status_answer) :
  status_known a = None ->
  status_poll gearman_continue gearman_failed (a :: rest) =
  if gearman_continue (status_ret a) then Undefined
  else if gearman_failed (status_ret a) then
    Returns (EXIT_FAILURE, [Error_line (status_error a)], rest)
  else Undefined.
Proof.
  intros Hknown. unfold status_poll. cbn [status_loop].
  unfold known_after. rewrite Hknown.
  destruct (gearman_continue (status_ret a)); [done|].
  by destruct (gearman_failed (status_ret a)).
Qed.

End StatusLoop.

(** ** The further properties on the loopback instance *)

Lemma set_error_records_line_witness :
  exists state',
    gearman_state_set_error (X := Sample.loopback)
      (Sample.session [] false None) (Buf.text "gearman_wait")
      (Buf.text "realloc") (Sample.calm []) =
    Returns (state', Sample.calm []) /\
    Buf.c_str (last_error state') = Some (Buf.text "gearman_wait:realloc").
Proof.
  destruct (set_error_records_line (X := Sample.loopback)
              (Sample.session [] false None) (Buf.text "gearman_wait")
              (Buf.text "realloc") (Sample.calm []))
    as (state' & Hreturns & _ & Hfits & _).
  - reflexivity.
  - simpl. lia.
  - reflexivity.
  - apply (bool_decide_unpack _). vm_compute. reflexivity.
  - apply (bool_decide_unpack _). vm_compute. reflexivity.
  - exists state'. split; [exact Hreturns|]. apply Hfits. simpl. lia.
Defined.

Lemma set_error_calls_log_function_witness :
  exists line w',
    gearman_state_set_error (X := Sample.loopback)
      (Sample.session [] false (Some 7)) (Buf.text "gearman_wait")
      (Buf.text "realloc") (Sample.calm []) =
    Returns (Sample.session [] false (Some 7), w') /\
    log_calls w' =
      [{| log_function := 7; log_line := line;
          log_verbose := GEARMAN_VERBOSE_FATAL; log_ctx := None |}] /\
    Buf.c_str line = Some (Buf.text "gearman_wait:realloc").
Proof.
  destruct (set_error_calls_log_function (X := Sample.loopback)
              (Sample.session [] false (Some 7)) (Buf.text "gearman_wait")
              (Buf.text "realloc") (Sample.calm []) 7)
    as (line & Hreturns & _ & Hline).
  - reflexivity.
  - simpl. lia.
  - apply (bool_decide_unpack _). vm_compute. reflexivity.
  - apply (bool_decide_unpack _). vm_compute. reflexivity.
  - exists line. eexists. split; [exact Hreturns|]. split; [reflexivity|].
    exact Hline.
Defined.

Lemma set_error_overruns_buffer_witness :
  gearman_state_set_error (X := Sample.loopback)
    (Sample.session [] false None) (replicate 1024 x66)
    (Buf.text "message") (Sample.calm []) = Undefined.
Proof.
  apply (set_error_overruns_buffer (X := Sample.loopback)).
  apply Nat.leb_le. vm_compute. reflexivity.
Defined.

Lemma set_error_touches_last_error_only_witness :
  exists state' w',
    gearman_state_set_error (X := Sample.loopback)
      (Sample.session [Sample.connection 4730 1 true] true (Some 8))
      (Buf.text "gearman_wait") (Buf.text "timeout reached")
      (Sample.calm [Sample.interrupted]) = Returns (state', w') /\
    state' = Sample.session [Sample.connection 4730 1 true] true (Some 8) /\
    errno w' = 9%Z.
Proof.
  do 2 eexists. split; [vm_compute; reflexivity|].
  pose proof (set_error_touches_last_error_only (X := Sample.loopback)
                (Sample.session [Sample.connection 4730 1 true] true (Some 8))
                _ (Buf.text "gearman_wait") (Buf.text "timeout reached")
                (Sample.calm [Sample.interrupted]) _ eq_refl)
    as [_ Hworld].
  simpl in Hworld. destruct Hworld as (Hstate & _).
  split; [exact Hstate|reflexivity].
Defined.

Lemma set_log_fn_redirects_errors_witness :
  (exists line w',
     gearman_state_set_error (X := Sample.loopback)
       (gearman_set_log_fn (Sample.session [] false None) (Some 7) (Some 2) 1)
       (Buf.text "gearman_echo") (Buf.text "corruption during echo")
       (Sample.calm []) =
     Returns
       (gearman_set_log_fn (Sample.session [] false None) (Some 7) (Some 2) 1,
        w') /\
     log_calls w' =
       [{| log_function := 7; log_line := line;
           log_verbose := GEARMAN_VERBOSE_FATAL; log_ctx := Some 2 |}] /\
     Buf.c_str line =
       Some (Buf.text "gearman_echo:corruption during echo")) /\
  (exists state',
     gearman_state_set_error (X := Sample.loopback)
       (gearman_set_log_fn (Sample.session [] false (Some 7)) None None 0)
       (Buf.text "gearman_echo") (Buf.text "corruption during echo")
       (Sample.calm []) = Returns (state', Sample.calm []) /\
     Buf.c_str (last_error state') =
       Some (Buf.text "gearman_echo:corruption during echo")).
Proof.
  split.
  - destruct (set_log_fn_redirects_errors (X := Sample.loopback)
                (Sample.session [] false None) (Buf.text "gearman_echo")
                (Buf.text "corruption during echo") (Sample.calm []) 7
                (Some 2) 1)
      as [(line & Hreturns & Hline) _].
    + simpl. lia.
    + apply (bool_decide_unpack _). vm_compute. reflexivity.
    + apply (bool_decide_unpack _). vm_compute. reflexivity.
    + exists line. eexists. split; [exact Hreturns|].
      split; [reflexivity|exact Hline].
  - apply (set_log_fn_redirects_errors (X := Sample.loopback)
             (Sample.session [] false (Some 7)) (Buf.text "gearman_echo")
             (Buf.text "corruption during echo") (Sample.calm []) 7 None 0).
    + simpl. lia.
    + apply (bool_decide_unpack _). vm_compute. reflexivity.
    + apply (bool_decide_unpack _). vm_compute. reflexivity.
Defined.


Lemma ready_drain_in_order_witness :
  ready_drain 5
    (Sample.session
       [Sample.connection 4730 1 false; Sample.connection 4731 1 true;
        Sample.connection 4732 1 true]
       false None) =
  ([1; 2],
   Sample.session
     [Sample.connection 4730 1 false; Sample.connection 4731 1 false;
      Sample.connection 4732 1 false]
     false None).
Proof.
  apply (ready_drain_in_order 5
           (Sample.session
              [Sample.connection 4730 1 false; Sample.connection 4731 1 true;
               Sample.connection 4732 1 true]
              false None)).
  simpl. lia.
Defined.

Lemma wait_delivers_events_witness :
  exists state' w',
    gearman_wait (X := Sample.loopback)
      (Sample.session
         [Sample.connection 4730 1 false; Sample.connection 4731 0 false;
          Sample.connection 4732 4 false]
         false None)
      (Sample.calm
         [Sample.interrupted;
          {| poll_ret := 1; poll_errno := 0; poll_revents := [0; 4]%Z |}]) =
    Returns (GEARMAN_SUCCESS, state', w') /\
    ready <$> con_list state' = [false; false; true] /\
    revents <$> con_list state' = [0; 0; 4]%Z /\
    poll_answers w' = [].
Proof.
  destruct (wait_delivers_events (X := Sample.loopback)
              (Sample.session
                 [Sample.connection 4730 1 false;
                  Sample.connection 4731 0 false;
                  Sample.connection 4732 4 false]
                 false None)
              (Sample.calm
                 [Sample.interrupted;
                  {| poll_ret := 1; poll_errno := 0;
                     poll_revents := [0; 4]%Z |}])
              [Sample.interrupted] []
              {| poll_ret := 1; poll_errno := 0; poll_revents := [0; 4]%Z |})
    as (state' & w' & Hreturns & Hconns & Hrest).
  - intros _. reflexivity.
  - reflexivity.
  - vm_compute. lia.
  - reflexivity.
  - repeat constructor.
  - simpl. lia.
  - simpl. lia.
  - exists state', w'. split; [exact Hreturns|].
    rewrite Hconns. split; [reflexivity|]. split; [reflexivity|exact Hrest].
Defined.

Lemma wait_keeps_session_witness :
  exists ret state' w',
    gearman_wait (X := Sample.loopback)
      (Sample.session
         [Sample.connection 4730 1 false; Sample.connection 4731 4 false]
         true (Some 7))
      (Sample.calm
         [{| poll_ret := 0; poll_errno := 0; poll_revents := [0; 0]%Z |}]) =
    Returns (ret, state', w') /\
    wait_frame
      (Sample.session
         [Sample.connection 4730 1 false; Sample.connection 4731 4 false]
         true (Some 7))
      state' /\
    pfds_size state' = 2.
Proof.
  do 3 eexists. split; [vm_compute; reflexivity|].
  destruct (wait_keeps_session (X := Sample.loopback)
              (Sample.session
                 [Sample.connection 4730 1 false;
                  Sample.connection 4731 4 false]
                 true (Some 7))
              _
              (Sample.calm
                 [{| poll_ret := 0; poll_errno := 0;
                     poll_revents := [0; 0]%Z |}])
              _ _ eq_refl)
    as (Hframe & _ & _ & _).
  split; [exact Hframe|reflexivity].
Defined.

Lemma echo_all_intact_witness :
  exists state',
    gearman_echo (X := Sample.loopback)
      (Sample.session
         [Sample.connection 4730 0 false; Sample.connection 4730 1 false]
         true None)
      Sample.hello (Sample.calm []) =
    Returns (GEARMAN_SUCCESS, state', Sample.calm []) /\
    non_blocking (options state') = true /\
    data <$> (packet <$> con_list state') = [[]; []].
Proof.
  eexists. split.
  - apply (echo_all_intact (X := Sample.loopback)
             (Sample.session
                [Sample.connection 4730 0 false;
                 Sample.connection 4730 1 false]
                true None)
             Sample.hello (Sample.calm [])
             {| magic := GEARMAN_MAGIC_REQUEST;
                command := GEARMAN_COMMAND_ECHO_REQ; args := [];
                data := Sample.hello |}).
    + reflexivity.
    + constructor; [|constructor; [|constructor]];
        eexists; split; reflexivity.
  - split; reflexivity.
Defined.

Lemma echo_first_failure_witness :
  exists state' w',
    gearman_echo (X := Sample.loopback)
      (Sample.session
         [Sample.connection 4730 0 false; Sample.connection 4732 0 false;
          Sample.connection 4730 1 false]
         true None)
      Sample.hello (Sample.calm []) =
    Returns (GEARMAN_LOST_CONNECTION, state', w') /\
    data <$> (packet <$> con_list state') = [[]; Sample.hello; []] /\
    non_blocking (options state') = true.
Proof.
  destruct (echo_first_failure (X := Sample.loopback)
              (Sample.session
                 [Sample.connection 4730 0 false;
                  Sample.connection 4732 0 false;
                  Sample.connection 4730 1 false]
                 true None)
              Sample.hello (Sample.calm [])
              {| magic := GEARMAN_MAGIC_REQUEST;
                 command := GEARMAN_COMMAND_ECHO_REQ; args := [];
                 data := Sample.hello |}
              [Sample.connection 4730 0 false]
              [Sample.connection 4730 1 false]
              (Sample.connection 4732 0 false)
              (set_packet
                 {| magic := GEARMAN_MAGIC_REQUEST;
                    command := GEARMAN_COMMAND_ECHO_REQ; args := [];
                    data := Sample.hello |}
                 (Sample.connection 4732 0 false))
              GEARMAN_LOST_CONNECTION)
    as (state' & w' & Hreturns & Hconns & Hmode).
  - reflexivity.
  - reflexivity.
  - constructor; [|constructor]. eexists. split; reflexivity.
  - split; [discriminate|]. right. eexists. split; reflexivity.
  - exists state', w'. split; [exact Hreturns|].
    rewrite Hconns. split; [reflexivity|exact Hmode].
Defined.

Lemma create_reads_options_to_terminator_witness :
  exists d,
    gearman_state_create (X := Sample.loopback) None
      (Some [GEARMAN_NON_BLOCKING; GEARMAN_MAX; GEARMAN_DONT_TRACK_PACKETS])
      (Sample.calm []) = Returns (Some d, Sample.calm []) /\
    non_blocking (options d) = true /\
    dont_track_packets (options d) = false /\
    allocated (options d) = true /\
    timeout d = (-1)%Z.
Proof.
  destruct (create_reads_options_to_terminator (X := Sample.loopback) None
              [GEARMAN_NON_BLOCKING] [GEARMAN_DONT_TRACK_PACKETS]
              (Sample.calm []))
    as (d & Hreturns & Hoptions & Htimeout & _).
  - intros _. reflexivity.
  - intros old Hold. discriminate.
  - simpl. lia.
  - apply (bool_decide_unpack _). vm_compute. reflexivity.
  - exists d. split; [exact Hreturns|]. rewrite Hoptions.
    split; [reflexivity|]. split; [reflexivity|].
    split; [reflexivity|exact Htimeout].
Defined.

Lemma create_needs_terminator_witness :
  gearman_state_create (X := Sample.loopback) None
    (Some [GEARMAN_NON_BLOCKING; GEARMAN_DONT_TRACK_PACKETS])
    (Sample.calm []) = Undefined /\
  gearman_state_create (X := Sample.loopback) None
    (Some [GEARMAN_NON_BLOCKING; GEARMAN_DONT_TRACK_PACKETS])
    Sample.out_of_memory = Returns (None, Sample.out_of_memory).
Proof.
  split.
  - apply (create_needs_terminator (X := Sample.loopback) None
             [GEARMAN_NON_BLOCKING; GEARMAN_DONT_TRACK_PACKETS]
             (Sample.calm [])).
    apply (bool_decide_unpack _). vm_compute. reflexivity.
  - apply (create_needs_terminator (X := Sample.loopback) None
             [GEARMAN_NON_BLOCKING; GEARMAN_DONT_TRACK_PACKETS]
             Sample.out_of_memory).
    apply (bool_decide_unpack _). vm_compute. reflexivity.
Defined.

Lemma clone_leaves_hooks_behind_witness :
  exists d,
    gearman_state_clone (X := Sample.loopback) None
      (Some (gearman_set_log_fn
               (Sample.session [Sample.connection 4730 1 true] true None)
               (Some 7) (Some 2) 3))
      (Sample.calm []) = Returns (Some d, Sample.calm []) /\
    log_fn d = None /\ log_context d = None /\ verbose d = 0%Z.
Proof.
  assert (Honly : clone_adds_connections_only (X := Sample.loopback)).
  { intros destination con destination' Hcopy. simpl in Hcopy.
    unfold Sample.connection_clone in Hcopy.
    destruct (decide (port con = 4733%Z)); [discriminate|].
    injection Hcopy as <-. by repeat split. }
  eexists. split; [vm_compute; reflexivity|].
  destruct (clone_leaves_hooks_behind (X := Sample.loopback) None
              (gearman_set_log_fn
                 (Sample.session [Sample.connection 4730 1 true] true None)
                 (Some 7) (Some 2) 3)
              _ (Sample.calm []) (Sample.calm []) Honly eq_refl)
    as (Hlog & Hcontext & _ & _ & _ & _ & _ & _ & Hverbose & _).
  split; [exact Hlog|]. split; [exact Hcontext|exact Hverbose].
Defined.

Lemma set_option_composes_witness :
  snd (gearman_set_option
         (snd (gearman_set_option
                 (snd (gearman_set_option (Sample.session [] false None)
                         GEARMAN_NON_BLOCKING true))
                 GEARMAN_MAX true))
         GEARMAN_DONT_TRACK_PACKETS true) =
  snd (gearman_set_option
         (snd (gearman_set_option (Sample.session [] false None)
                 GEARMAN_NON_BLOCKING true))
         GEARMAN_DONT_TRACK_PACKETS true).
Proof.
  apply (set_option_composes (Sample.session [] false None) true true
           GEARMAN_MAX); discriminate.
Defined.

Lemma status_poll_until_unknown_witness :
  Example.status_poll
    (fun ret => bool_decide (ret = GEARMAN_IO_WAIT)) gearman_failed
    [{| Example.status_ret := GEARMAN_IO_WAIT;
        Example.status_known := Some true;
        Example.status_running := None;
        Example.status_numerator := None;
        Example.status_denominator := None;
        Example.status_error := [] |};
     {| Example.status_ret := GEARMAN_SUCCESS;
        Example.status_known := Some true;
        Example.status_running := Some true;
        Example.status_numerator := Some 1%Z;
        Example.status_denominator := Some 2%Z;
        Example.status_error := [] |};
     {| Example.status_ret := GEARMAN_SUCCESS;
        Example.status_known := Some false;
        Example.status_running := Some false;
        Example.status_numerator := Some 0%Z;
        Example.status_denominator := Some 0%Z;
        Example.status_error := [] |};
     {| Example.status_ret := GEARMAN_LOST_CONNECTION;
        Example.status_known := None;
        Example.status_running := None;
        Example.status_numerator := None;
        Example.status_denominator := None;
        Example.status_error := Buf.text "lost" |}] =
  Returns
    (Example.EXIT_SUCCESS,
     [Example.Status_line true true 1 2; Example.Status_line false false 0 0],
     [{| Example.status_ret := GEARMAN_LOST_CONNECTION;
         Example.status_known := None;
         Example.status_running := None;
         Example.status_numerator := None;
         Example.status_denominator := None;
         Example.status_error := Buf.text "lost" |}]).
Proof.
  refine (status_poll_until_unknown
           (fun ret => bool_decide (ret = GEARMAN_IO_WAIT)) gearman_failed
           [{| Example.status_ret := GEARMAN_IO_WAIT;
               Example.status_known := Some true;
               Example.status_running := None;
               Example.status_numerator := None;
               Example.status_denominator := None;
               Example.status_error := [] |};
            {| Example.status_ret := GEARMAN_SUCCESS;
               Example.status_known := Some true;
               Example.status_running := Some true;
               Example.status_numerator := Some 1%Z;
               Example.status_denominator := Some 2%Z;
               Example.status_error := [] |}]
           [{| Example.status_ret := GEARMAN_LOST_CONNECTION;
               Example.status_known := None;
               Example.status_running := None;
               Example.status_numerator := None;
               Example.status_denominator := None;
               Example.status_error := Buf.text "lost" |}]
           {| Example.status_ret := GEARMAN_SUCCESS;
              Example.status_known := Some false;
              Example.status_running := Some false;
              Example.status_numerator := Some 0%Z;
              Example.status_denominator := Some 0%Z;
              Example.status_error := [] |}
           false 0%Z 0%Z _ _ _ _ _ _ _).
  - constructor; [split; [reflexivity|left; reflexivity]|].
    constructor; [|constructor].
    split; [reflexivity|]. right. split; [reflexivity|]. by eauto.
  - reflexivity.
  - reflexivity.
  - reflexivity.
  - reflexivity.
  - reflexivity.
  - reflexivity.
Defined.

Lemma status_poll_output_witness :
  exists statuses closing,
    [Example.Status_line true false 0 1;
     Example.Error_line (Buf.text "lost connection")] = statuses ++ closing /\
    Forall (fun p => exists r n d, p = Example.Status_line true r n d)
      statuses /\
    exists a, closing = [Example.Error_line (Example.status_error a)].
Proof.
  assert (Hrun :
    Example.status_poll
      (fun ret => bool_decide (ret = GEARMAN_IO_WAIT)) gearman_failed
      [{| Example.status_ret := GEARMAN_SUCCESS;
          Example.status_known := Some true;
          Example.status_running := Some false;
          Example.status_numerator := Some 0%Z;
          Example.status_denominator := Some 1%Z;
          Example.status_error := [] |};
       {| Example.status_ret := GEARMAN_LOST_CONNECTION;
          Example.status_known := None;
          Example.status_running := None;
          Example.status_numerator := None;
          Example.status_denominator := None;
          Example.status_error := Buf.text "lost connection" |}] =
    Returns
      (Example.EXIT_FAILURE,
       [Example.Status_line true false 0 1;
        Example.Error_line (Buf.text "lost connection")],
       [])).
  { vm_compute. reflexivity. }
  destruct (status_poll_output _ _ _ _ _ _ Hrun)
    as (statuses & closing & Hout & Hstatuses & a & _ & Hclosing).
  exists statuses, closing. split; [exact Hout|]. split; [exact Hstatuses|].
  exists a. exact Hclosing.
Defined.

Lemma status_poll_reads_is_known_witness :
  Example.status_poll
    (fun ret => bool_decide (ret = GEARMAN_IO_WAIT)) gearman_failed
    [{| Example.status_ret := GEARMAN_IO_WAIT;
        Example.status_known := None;
        Example.status_running := None;
        Example.status_numerator := None;
        Example.status_denominator := None;
        Example.status_error := [] |}] = Undefined /\
  Example.status_poll
    (fun ret => bool_decide (ret = GEARMAN_IO_WAIT)) gearman_failed
    [{| Example.status_ret := GEARMAN_SUCCESS;
        Example.status_known := None;
        Example.status_running := Some true;
        Example.status_numerator := Some 0%Z;
        Example.status_denominator := Some 1%Z;
        Example.status_error := [] |}] = Undefined.
Proof.
  split.
  - exact (status_poll_reads_is_known
             (fun ret => bool_decide (ret = GEARMAN_IO_WAIT)) gearman_failed
             {| Example.status_ret := GEARMAN_IO_WAIT;
                Example.status_known := None;
                Example.status_running := None;
                Example.status_numerator := None;
                Example.status_denominator := None;
                Example.status_error := [] |} [] eq_refl).
  - exact (status_poll_reads_is_known
             (fun ret => bool_decide (ret = GEARMAN_IO_WAIT)) gearman_failed
             {| Example.status_ret := GEARMAN_SUCCESS;
                Example.status_known := None;
                Example.status_running := Some true;
                Example.status_numerator := Some 0%Z;
                Example.status_denominator := Some 1%Z;
                Example.status_error := [] |} [] eq_refl).
Defined.
